(** * Langflow: Flow field validators and the database variable service

    A shallow embedding of
    - [langflow/services/database/models/flow/model.py] (the field
      validators and the [updated_at] serializer of [FlowBase] and
      [FlowUpdate]), and
    - [langflow/services/variable/service.py] ([DatabaseVariableService]).

    Python text is a sequence of Unicode code points, so [text] is a list
    of code points; exceptions are values of type [exn] carried by the
    [result] type. *)

From Stdlib Require Import ZArith NArith List Bool Lia String Ascii.
From stdpp Require Import base option list gmap.

Local Open Scope N_scope.

(** ** Text *)

Definition codepoint := N.
Definition text := list codepoint.

Fixpoint text_of_string (s : string) : text :=
  match s with
  | EmptyString => []
  | String a rest => N_of_ascii a :: text_of_string rest
  end.

Notation "'txt' s" := (text_of_string s%string) (at level 9, s at level 0, only parsing).

Definition COLON : codepoint := 58.
Definition HASH : codepoint := 35.
Definition HYPHEN : codepoint := 45.
Definition UNDERSCORE : codepoint := 95.
Definition NEWLINE : codepoint := 10.

(** [str.startswith(c)] and [str.endswith(c)] for a one-character [c]. *)
Definition startswith (c : codepoint) (s : text) : bool :=
  match s with
  | [] => false
  | x :: _ => N.eqb x c
  end.

Definition endswith (c : codepoint) (s : text) : bool :=
  match last s with
  | None => false
  | Some x => N.eqb x c
  end.

(** ** Exceptions and results *)

Inductive exn : Type :=
| HTTPException (status_code : N) (detail : text)
| ValueError (msg : text)
| TypeError (msg : text)
| AttributeError
| NoResultFound
| MultipleResultsFound
| ExternalError (what : text).

Inductive result (A : Type) : Type :=
| Ok (a : A)
| Raise (e : exn).
Arguments Ok {A} a.
Arguments Raise {A} e.

Global Instance result_ret : MRet result := fun A a => Ok a.
Global Instance result_bind : MBind result := fun A B k r =>
  match r with
  | Ok a => k a
  | Raise e => Raise e
  end.

Definition HTTP_422_UNPROCESSABLE_ENTITY : N := 422.

(** ** [datetime]

    The fields of a [datetime.datetime].  [tzinfo] is [None] for a naive
    value; an aware value is represented by the UTC offset its [tzinfo]
    reports for it, a [timedelta] counted here in microseconds. *)

Record datetime : Type := mk_datetime {
  year : N;
  month : N;
  day : N;
  hour : N;
  minute : N;
  second : N;
  microsecond : N;
  tzinfo : option Z
}.

(** [timezone.utc] *)
Definition timezone_utc : Z := 0%Z.

Definition is_leap (y : N) : bool :=
  (y mod 4 =? 0) && (negb (y mod 100 =? 0) || (y mod 400 =? 0)).

Definition days_in_month (y m : N) : N :=
  if m =? 2 then (if is_leap y then 29 else 28)
  else if (m =? 4) || (m =? 6) || (m =? 9) || (m =? 11) then 30
  else 31.

Definition DAY_US : Z := 86400000000%Z.

(** The range checks the [datetime] and [timezone] constructors make. *)
Definition check_date_fields (y m d : N) : bool :=
  (1 <=? y) && (y <=? 9999) && (1 <=? m) && (m <=? 12)
  && (1 <=? d) && (d <=? days_in_month y m).

Definition check_time_fields (h mi s us : N) : bool :=
  (h <=? 23) && (mi <=? 59) && (s <=? 59) && (us <=? 999999).

Definition check_offset (off : Z) : bool :=
  ((- DAY_US <? off) && (off <? DAY_US))%Z.

Definition valid_datetime (d : datetime) : bool :=
  check_date_fields (year d) (month d) (day d)
  && check_time_fields (hour d) (minute d) (second d) (microsecond d)
  && match tzinfo d with
     | None => true
     | Some off => check_offset off
     end.

(** [value.replace(microsecond=0)] and [value.replace(tzinfo=tz)] *)
Definition replace_microsecond (us : N) (d : datetime) : datetime :=
  mk_datetime (year d) (month d) (day d) (hour d) (minute d) (second d) us (tzinfo d).

Definition replace_tzinfo (tz : option Z) (d : datetime) : datetime :=
  mk_datetime (year d) (month d) (day d) (hour d) (minute d) (second d)
              (microsecond d) tz.

(** ** Values handed to a field validator

    A validator receives whatever the caller put in the field: [None],
    a [str], a [datetime], or a value of another type. *)

Inductive value : Type :=
| VNone
| VStr (s : text)
| VInt (z : Z)
| VBool (b : bool)
| VDatetime (d : datetime).

(** ** [re.match(r"^[a-zA-Z0-9_-]+$", v)]

    The class contains exactly the ASCII letters, the ASCII digits, the
    underscore and the hyphen. *)

Definition in_range (lo hi c : codepoint) : bool := (lo <=? c) && (c <=? hi).

Definition endpoint_class (c : codepoint) : bool :=
  in_range 97 122 c || in_range 65 90 c || in_range 48 57 c
  || N.eqb c UNDERSCORE || N.eqb c HYPHEN.

(** Without [re.MULTILINE], [$] succeeds at the end of the text and
    also just before a newline that is the last character. *)
Definition re_dollar (rest : text) : bool :=
  match rest with
  | [] => true
  | [c] => N.eqb c NEWLINE
  | _ => false
  end.

(** The greedy [+]: take one more class character when that leads to a
    match, otherwise try [$] at the current position. *)
Fixpoint re_class_star_dollar (s : text) : bool :=
  match s with
  | [] => re_dollar []
  | c :: rest =>
      (endpoint_class c && re_class_star_dollar rest) || re_dollar (c :: rest)
  end.

Definition re_match_endpoint (s : text) : bool :=
  match s with
  | [] => false
  | c :: rest => endpoint_class c && re_class_star_dollar rest
  end.

(** ** [datetime.isoformat]

    The text the standard library writes for a [datetime]:
    [YYYY-MM-DDTHH:MM:SS[.ffffff][+HH:MM[:SS[.ffffff]]]]. *)

Definition DIGIT0 : codepoint := 48.
Definition PLUS : codepoint := 43.
Definition DOT : codepoint := 46.
Definition LETTER_T : codepoint := 84.

(** ["%0kd" % n] for a field below [10^k]: [k] decimal digits. *)
Fixpoint zfill (k : nat) (n : N) : text :=
  match k with
  | O => []
  | S k' => zfill k' (n / 10) ++ [DIGIT0 + n mod 10]
  end.

Definition format_time (h mi s us : N) : text :=
  zfill 2 h ++ [COLON] ++ zfill 2 mi ++ [COLON] ++ zfill 2 s
  ++ (if us =? 0 then [] else [DOT] ++ zfill 6 us).

Definition HOUR_US : Z := 3600000000%Z.
Definition MINUTE_US : Z := 60000000%Z.
Definition SECOND_US : Z := 1000000%Z.

Definition format_offset (off : option Z) : text :=
  match off with
  | None => []
  | Some o =>
      let sign := if (o <? 0)%Z then HYPHEN else PLUS in
      let a := Z.to_N (Z.abs o) in
      let hh := a / Z.to_N HOUR_US in
      let r := a mod Z.to_N HOUR_US in
      let mm := r / Z.to_N MINUTE_US in
      let ss := r mod Z.to_N MINUTE_US in
      [sign] ++ zfill 2 hh ++ [COLON] ++ zfill 2 mm
      ++ (if ss =? 0 then []
          else [COLON] ++ zfill 2 (ss / Z.to_N SECOND_US)
               ++ (if ss mod Z.to_N SECOND_US =? 0 then []
                   else [DOT] ++ zfill 6 (ss mod Z.to_N SECOND_US)))
  end.

Definition isoformat (d : datetime) : text :=
  zfill 4 (year d) ++ [HYPHEN] ++ zfill 2 (month d) ++ [HYPHEN] ++ zfill 2 (day d)
  ++ [LETTER_T]
  ++ format_time (hour d) (minute d) (second d) (microsecond d)
  ++ format_offset (tzinfo d).

(** ** [datetime.fromisoformat]

    The parser of the standard library, as the C implementation of
    CPython 3.11 has it ([Modules/_datetimemodule.c]): the text is
    encoded as UTF-8 and parsed byte by byte.  It reads more than
    [isoformat] writes: dates without hyphens, week dates, a time cut
    after the hour or the minute, a fraction of any length after a dot
    or a comma, and a final [Z].  Every rejection is a [ValueError];
    of the message for a malformed text only the fixed part is kept,
    which the interpreter follows with the [repr] of the text. *)

Definition COMMA : codepoint := 44.
Definition LETTER_W : codepoint := 87.
Definition LETTER_Z : codepoint := 90.

(** *** UTF-8 *)
Definition surrogate (c : codepoint) : bool := in_range 55296 57343 c.

Definition utf8_char (c : codepoint) : list N :=
  if c <? 128 then [c]
  else if c <? 2048 then [192 + c / 64; 128 + c mod 64]
  else if c <? 65536 then [224 + c / 4096; 128 + (c / 64) mod 64; 128 + c mod 64]
  else [240 + c / 262144; 128 + (c / 4096) mod 64; 128 + (c / 64) mod 64; 128 + c mod 64].

Definition utf8 (s : text) : option (list N) :=
  if existsb surrogate s then None else Some (concat (map utf8_char s)).

(** A pointer into the buffer is the list of bytes from its position to
    the end of the buffer; reading at the end gives the terminating
    NUL. *)
Definition peek (p : list N) : N :=
  match p with
  | [] => 0
  | c :: _ => c
  end.

Definition is_digit (c : N) : bool := in_range 48 57 c.

Fixpoint parse_digits (p : list N) (var : N) (num_digits : nat) : option (list N * N) :=
  match num_digits with
  | O => Some (p, var)
  | S k =>
      let c := peek p in
      if is_digit c then parse_digits (tail p) (10 * var + (c - 48)) k else None
  end.

(** *** Calendar arithmetic, on C integers *)
Local Open Scope Z_scope.

Definition table (t : list Z) (i : Z) : Z :=
  if i <? 0 then 0 else nth (Z.to_nat i) t 0.

Definition _days_in_month : list Z := [0; 31; 28; 31; 30; 31; 30; 31; 31; 30; 31; 30; 31].
Definition _days_before_month : list Z :=
  [0; 0; 31; 59; 90; 120; 151; 181; 212; 243; 273; 304; 334].

Definition c_is_leap (year : Z) : bool :=
  (Z.rem year 4 =? 0) && (negb (Z.rem year 100 =? 0) || (Z.rem year 400 =? 0)).

Definition c_days_in_month (year month : Z) : Z :=
  if (month =? 2) && c_is_leap year then 29 else table _days_in_month month.

Definition days_before_month (year month : Z) : Z :=
  table _days_before_month month + (if (2 <? month) && c_is_leap year then 1 else 0).

Definition days_before_year (year : Z) : Z :=
  let y := year - 1 in
  y * 365 + Z.quot y 4 - Z.quot y 100 + Z.quot y 400.

Definition ymd_to_ord (year month day : Z) : Z :=
  days_before_year year + days_before_month year month + day.

Definition weekday (year month day : Z) : Z :=
  Z.rem (ymd_to_ord year month day + 6) 7.

Definition iso_week1_monday (year : Z) : Z :=
  let first_day := ymd_to_ord year 1 1 in
  let first_weekday := Z.rem (first_day + 6) 7 in
  let week1_monday := first_day - first_weekday in
  if 3 <? first_weekday then week1_monday + 7 else week1_monday.

Definition DI4Y : Z := 1461.
Definition DI100Y : Z := 36524.
Definition DI400Y : Z := 146097.

Definition ord_to_ymd (ordinal : Z) : Z * Z * Z :=
  let ordinal := ordinal - 1 in
  let n400 := Z.quot ordinal DI400Y in
  let n := Z.rem ordinal DI400Y in
  let n100 := Z.quot n DI100Y in
  let n := Z.rem n DI100Y in
  let n4 := Z.quot n DI4Y in
  let n := Z.rem n DI4Y in
  let n1 := Z.quot n 365 in
  let n := Z.rem n 365 in
  let year := n400 * 400 + 1 + n100 * 100 + n4 * 4 + n1 in
  if (n1 =? 4) || (n100 =? 4) then (year - 1, 12, 31)
  else
    let leapyear := (n1 =? 3) && (negb (n4 =? 24) || (n100 =? 3)) in
    let month := Z.shiftr (n + 50) 5 in
    let preceding := table _days_before_month month
                     + (if (2 <? month) && leapyear then 1 else 0) in
    if n <? preceding
    then let month := month - 1 in
         let preceding := preceding - c_days_in_month year month in
         (year, month, n - preceding + 1)
    else (year, month, n - preceding + 1).

Definition iso_to_ymd (iso_year iso_week iso_day : Z) : option (Z * Z * Z) :=
  let week_ok :=
    if (iso_week <=? 0) || (53 <=? iso_week)
    then (iso_week =? 53)
         && (let first_weekday := weekday iso_year 1 1 in
             (first_weekday =? 3) || ((first_weekday =? 2) && c_is_leap iso_year))
    else true in
  if negb week_ok then None
  else if (iso_day <=? 0) || (8 <=? iso_day) then None
  else
    let day_1 := iso_week1_monday iso_year in
    let day_offset := (iso_week - 1) * 7 + iso_day - 1 in
    Some (ord_to_ymd (day_1 + day_offset)).

Local Close Scope Z_scope.

(** [parse_isoformat_date(dtstr, len, ...)] *)
Definition parse_isoformat_date (dtstr : list N) (len : nat) : option (Z * Z * Z) :=
  '(p, year) ← parse_digits dtstr 0 4;
  let uses_separator := peek p =? HYPHEN in
  let p := if uses_separator then tail p else p in
  if peek p =? LETTER_W then
    let p := tail p in
    '(p, iso_week) ← parse_digits p 0 2;
    let consumed := if uses_separator then 8%nat else 7%nat in
    if (consumed <? len)%nat then
      if uses_separator && negb (peek p =? HYPHEN) then None
      else
        let p := if uses_separator then tail p else p in
        '(p, iso_day) ← parse_digits p 0 1;
        iso_to_ymd (Z.of_N year) (Z.of_N iso_week) (Z.of_N iso_day)
    else iso_to_ymd (Z.of_N year) (Z.of_N iso_week) 1
  else
    '(p, month) ← parse_digits p 0 2;
    if uses_separator && negb (peek p =? HYPHEN) then None
    else
      let p := if uses_separator then tail p else p in
      '(p, day) ← parse_digits p 0 2;
      Some (Z.of_N year, Z.of_N month, Z.of_N day).

Definition at_ (dtstr : list N) (i : nat) : N := peek (drop i dtstr).

Fixpoint digits_run (p : list N) : nat :=
  match p with
  | [] => O
  | c :: rest => if is_digit c then S (digits_run rest) else O
  end.

(** [_find_isoformat_datetime_separator(dtstr, len)]; [None] is its -1. *)
Definition find_isoformat_datetime_separator (dtstr : list N) (len : nat) : option nat :=
  if (len =? 7)%nat then Some 7%nat
  else if at_ dtstr 4 =? HYPHEN then
    if at_ dtstr 5 =? LETTER_W then
      if (len <? 8)%nat then None
      else if (8 <? len)%nat && (at_ dtstr 8 =? HYPHEN) then
        if (len =? 9)%nat then None
        else if (10 <? len)%nat && is_digit (at_ dtstr 10) then Some 8%nat
        else Some 10%nat
      else Some 8%nat
    else Some 10%nat
  else if at_ dtstr 4 =? LETTER_W then
    let idx := (7 + digits_run (drop 7 dtstr))%nat in
    if (idx <? 9)%nat then Some idx
    else if Nat.even idx then Some 7%nat
    else Some 8%nat
  else Some 8%nat.

Inductive hms_next : Type :=
| Stop (more : bool)
| Next (p : list N)
| Fraction (p : list N)
| Malformed.

(** The tests after a two-digit field, [p] pointing at the character
    that follows the field and [stop] being the number of bytes from
    [p_end] to the end of the buffer. *)
Definition hms_after (has_separator : bool) (p : list N) (stop : nat) : hms_next :=
  let c := peek p in
  let p' := tail p in
  if (length p' <=? stop)%nat then Stop (negb (c =? 0))
  else if has_separator && (c =? COLON) then Next p'
  else if (c =? DOT) || (c =? COMMA) then Fraction p'
  else if negb has_separator then Next p
  else Malformed.

Fixpoint skip_digits (p : list N) : list N :=
  match p with
  | [] => []
  | c :: rest => if is_digit c then skip_digits rest else p
  end.

Definition correction : list N := [100000; 10000; 1000; 100; 10].

Definition parse_fraction (p : list N) (stop : nat) (hour minute second : N)
  : option (bool * (N * N * N * N)) :=
  let len_remains := (length p - stop)%nat in
  let to_parse := if (6 <=? len_remains)%nat then 6%nat else len_remains in
  '(p, microsecond) ← parse_digits p 0 to_parse;
  let microsecond :=
    if (to_parse <? 6)%nat then microsecond * nth (to_parse - 1) correction 0
    else microsecond in
  let p := skip_digits p in
  Some (negb (peek p =? 0), (hour, minute, second, microsecond)).

(** [parse_hh_mm_ss_ff(tstr, tstr_end, ...)]: [None] for a negative
    return code, otherwise whether something is left before the NUL. *)
Definition parse_hh_mm_ss_ff (tstr : list N) (stop : nat)
  : option (bool * (N * N * N * N)) :=
  '(p, hour) ← parse_digits tstr 0 2;
  let has_separator := peek p =? COLON in
  match hms_after has_separator p stop with
  | Stop more => Some (more, (hour, 0, 0, 0))
  | Malformed => None
  | Fraction p => parse_fraction p stop hour 0 0
  | Next p =>
      '(p, minute) ← parse_digits p 0 2;
      match hms_after has_separator p stop with
      | Stop more => Some (more, (hour, minute, 0, 0))
      | Malformed => None
      | Fraction p => parse_fraction p stop hour minute 0
      | Next p =>
          '(p, second) ← parse_digits p 0 2;
          match hms_after has_separator p stop with
          | Stop more => Some (more, (hour, minute, second, 0))
          | Malformed => None
          | Fraction p | Next p => parse_fraction p stop hour minute second
          end
      end
  end.

Definition is_tz_char (c : N) : bool :=
  (c =? LETTER_Z) || (c =? PLUS) || (c =? HYPHEN).

Fixpoint tz_scan (p : list N) : list N :=
  match p with
  | [] => []
  | c :: rest => if is_tz_char c then p else tz_scan rest
  end.

(** [parse_isoformat_time]: the time fields and, when there is one, the
    offset as whole seconds and microseconds. *)
Definition parse_isoformat_time (dtstr : list N)
  : option (N * N * N * N * option (Z * Z)) :=
  let tzinfo_pos := tz_scan dtstr in
  match parse_hh_mm_ss_ff dtstr (length tzinfo_pos) with
  | None => None
  | Some (more, t) =>
      match tzinfo_pos with
      | [] => if more then None else Some (t, None)
      | c :: after =>
          if c =? LETTER_Z then
            if negb (peek after =? 0) then None else Some (t, Some (0, 0)%Z)
          else
            let tzsign := if c =? HYPHEN then (-1)%Z else 1%Z in
            match parse_hh_mm_ss_ff after 0 with
            | None => None
            | Some (more, (tzhour, tzminute, tzsecond, tzmicrosecond)) =>
                if more then None
                else Some (t, Some ((tzsign * (Z.of_N tzhour * 3600
                                               + Z.of_N tzminute * 60
                                               + Z.of_N tzsecond))%Z,
                                    (tzsign * Z.of_N tzmicrosecond)%Z))
            end
      end
  end.

Definition sep_width (b : N) : nat :=
  if b <? 128 then 1
  else if N.land b 240 =? 224 then 3
  else if N.land b 240 =? 240 then 4
  else 2.

Definition sanitize_isoformat_str (dtstr : text) : option text :=
  if (length dtstr <? 7)%nat then None
  else
    let is_sur pos := match dtstr !! pos with Some c => surrogate c | None => false end in
    if is_sur 7%nat then Some (<[7%nat := LETTER_T]> dtstr)
    else if is_sur 8%nat then Some (<[8%nat := LETTER_T]> dtstr)
    else if is_sur 10%nat then Some (<[10%nat := LETTER_T]> dtstr)
    else Some dtstr.

(** Decimal notation of an integer, as ["%i"] and [repr] write it. *)
Fixpoint decimal_digits (fuel : nat) (n : N) (acc : text) : text :=
  match fuel with
  | O => acc
  | S fuel' =>
      let acc := (DIGIT0 + n mod 10) :: acc in
      if n / 10 =? 0 then acc else decimal_digits fuel' (n / 10) acc
  end.

Definition decimal (z : Z) : text :=
  (if (z <? 0)%Z then [HYPHEN] else [])
  ++ decimal_digits (S (N.size_nat (Z.abs_N z))) (Z.abs_N z) [].

Fixpoint join (sep : text) (parts : list text) : text :=
  match parts with
  | [] => []
  | [x] => x
  | x :: rest => x ++ sep ++ join sep rest
  end.

(** [repr] of the [timedelta] of [us] microseconds. *)
Definition timedelta_repr (us : Z) : text :=
  let days := (us / DAY_US)%Z in
  let seconds := ((us mod DAY_US) / SECOND_US)%Z in
  let microseconds := ((us mod DAY_US) mod SECOND_US)%Z in
  let part name v := if (v =? 0)%Z then [] else [name ++ decimal v] in
  let parts := part (txt "days=") days ++ part (txt "seconds=") seconds
               ++ part (txt "microseconds=") microseconds in
  txt "datetime.timedelta("
  ++ (match parts with [] => txt "0" | _ => join (txt ", ") parts end) ++ txt ")".

Definition invalid_isoformat : exn := ValueError (txt "Invalid isoformat string").

Definition msg_offset_range (us : Z) : text :=
  txt "offset must be a timedelta strictly between -timedelta(hours=24) and timedelta(hours=24), not "
  ++ timedelta_repr us ++ txt ".".

(** [tzinfo_from_isoformat_results]: no offset, UTC whenever the whole
    seconds of the offset are zero, and otherwise [timezone(timedelta)]
    with its range check. *)
Definition tzinfo_from_isoformat_results (tz : option (Z * Z)) : result (option Z) :=
  match tz with
  | None => Ok None
  | Some (tzoffset, tz_useconds) =>
      if (tzoffset =? 0)%Z then Ok (Some timezone_utc)
      else
        let off := (tzoffset * SECOND_US + tz_useconds)%Z in
        if check_offset off then Ok (Some off)
        else Raise (ValueError (msg_offset_range off))
  end.

(** [new_datetime_ex]: the range checks of the constructor, in its
    order. *)
Definition new_datetime (year month day : Z) (h mi s us : N) (tz : option Z)
  : result datetime :=
  if ((year <? 1) || (9999 <? year))%Z
  then Raise (ValueError (txt "year " ++ decimal year ++ txt " is out of range"))
  else if ((month <? 1) || (12 <? month))%Z
  then Raise (ValueError (txt "month must be in 1..12"))
  else if ((day <? 1) || (c_days_in_month year month <? day))%Z
  then Raise (ValueError (txt "day is out of range for month"))
  else if 23 <? h then Raise (ValueError (txt "hour must be in 0..23"))
  else if 59 <? mi then Raise (ValueError (txt "minute must be in 0..59"))
  else if 59 <? s then Raise (ValueError (txt "second must be in 0..59"))
  else Ok (mk_datetime (Z.to_N year) (Z.to_N month) (Z.to_N day) h mi s us tz).

Definition fromisoformat (date_string : text) : result datetime :=
  match sanitize_isoformat_str date_string with
  | None => Raise invalid_isoformat
  | Some clean =>
      match utf8 clean with
      | None => Raise invalid_isoformat
      | Some dt =>
          let len := length dt in
          match find_isoformat_datetime_separator dt len with
          | None => Raise invalid_isoformat
          | Some separator_location =>
              match parse_isoformat_date dt separator_location with
              | None => Raise invalid_isoformat
              | Some (year, month, day) =>
                  let time :=
                    if (separator_location <? len)%nat
                    then let p := drop separator_location dt in
                         parse_isoformat_time (drop (sep_width (peek p)) p)
                    else Some (0, 0, 0, 0, None) in
                  match time with
                  | None => Raise invalid_isoformat
                  | Some (h, mi, s, us, tz) =>
                      tzinfo ← tzinfo_from_isoformat_results tz;
                      new_datetime year month day h mi s us tzinfo
                  end
              end
          end
      end
  end.

(** ** A reader for the texts [isoformat] writes

    Not the parser of the standard library (that is [fromisoformat]
    above): a reader that accepts the shape [isoformat] writes and
    returns offsets as they are written.  It serves to show that
    [isoformat] loses nothing of a well-formed value. *)

(** The value of a text of ASCII digits. *)
Definition read_digit (c : codepoint) : option N :=
  if in_range 48 57 c then Some (c - DIGIT0) else None.

Fixpoint read_digits_acc (acc : N) (s : text) : option N :=
  match s with
  | [] => Some acc
  | c :: rest =>
      match read_digit c with
      | Some d => read_digits_acc (10 * acc + d) rest
      | None => None
      end
  end.

Definition read_digits (s : text) : option N :=
  match s with
  | [] => None
  | _ => read_digits_acc 0 s
  end.

Definition read_int (s : text) : result N :=
  match read_digits s with
  | Some n => Ok n
  | None => Raise invalid_isoformat
  end.

Definition read_char (c : codepoint) (s : text) : result text :=
  match s with
  | x :: rest => if x =? c then Ok rest else Raise invalid_isoformat
  | [] => Raise invalid_isoformat
  end.

(** [YYYY-MM-DD], the first ten characters. *)
Definition read_date (dstr : text) : result (N * N * N) :=
  y ← read_int (take 4 dstr);
  r ← read_char HYPHEN (drop 4 dstr);
  m ← read_int (take 2 r);
  r ← read_char HYPHEN (drop 2 r);
  d ← read_int (take 2 r);
  Ok (y, m, d).

Definition read_two_digits (s : text) : result (N * text) :=
  if (length s <? 2)%nat then Raise invalid_isoformat
  else n ← read_int (take 2 s); Ok (n, drop 2 s).

Definition read_fraction (s : text) : result N :=
  match s with
  | [] => Ok 0
  | c :: f =>
      if negb (c =? DOT) then Raise invalid_isoformat
      else if (length f =? 3)%nat then n ← read_int f; Ok (n * 1000)
      else if (length f =? 6)%nat then read_int f
      else Raise invalid_isoformat
  end.

(** [HH[:MM[:SS[.fff[fff]]]]] *)
Definition read_hh_mm_ss_ff (s : text) : result (N * N * N * N) :=
  '(hh, r) ← read_two_digits s;
  match r with
  | [] => Ok (hh, 0, 0, 0)
  | _ =>
      r ← read_char COLON r;
      '(mm, r) ← read_two_digits r;
      match r with
      | [] => Ok (hh, mm, 0, 0)
      | _ =>
          r ← read_char COLON r;
          '(ss, r) ← read_two_digits r;
          us ← read_fraction r;
          Ok (hh, mm, ss, us)
      end
  end.

(** The position of the sign of the offset, when there is one. *)
Fixpoint find (c : codepoint) (s : text) : option nat :=
  match s with
  | [] => None
  | x :: rest => if x =? c then Some O else S <$> find c rest
  end.

Definition find_sign (tstr : text) : option nat :=
  match find HYPHEN tstr with
  | Some i => Some i
  | None => find PLUS tstr
  end.

Definition offset_of (neg : bool) (c : N * N * N * N) : Z :=
  let '(hh, mm, ss, us) := c in
  let td := (Z.of_N hh * HOUR_US + Z.of_N mm * MINUTE_US
             + Z.of_N ss * SECOND_US + Z.of_N us)%Z in
  if neg then (- td)%Z else td.

(** The time and, after a sign, the offset. *)
Definition read_time (tstr : text)
  : result (N * N * N * N * option Z) :=
  if (length tstr <? 2)%nat then Raise invalid_isoformat
  else match find_sign tstr with
       | None => c ← read_hh_mm_ss_ff tstr; Ok (c, None)
       | Some i =>
           c ← read_hh_mm_ss_ff (take i tstr);
           let tzstr := drop (S i) tstr in
           if negb ((length tzstr =? 5)%nat || (length tzstr =? 8)%nat
                    || (length tzstr =? 15)%nat)
           then Raise invalid_isoformat
           else
             tz ← read_hh_mm_ss_ff tzstr;
             let neg := match tstr !! i with
                        | Some x => x =? HYPHEN
                        | None => false
                        end in
             let off := offset_of neg tz in
             if check_offset off then Ok (c, Some off)
             else Raise invalid_isoformat
       end.

(** Characters that are neither [-] nor [+]. *)
Definition plain (c : codepoint) : Prop := c <> HYPHEN /\ c <> PLUS.

(** The value of the fields, when they are in range. *)
Definition read_datetime (y m d h mi s us : N) (tz : option Z) : result datetime :=
  if check_date_fields y m d && check_time_fields h mi s us
  then Ok (mk_datetime y m d h mi s us tz)
  else Raise invalid_isoformat.

Definition read_isoformat (date_string : text) : result datetime :=
  let dstr := take 10 date_string in
  let tstr := drop 11 date_string in
  '(y, m, d) ← read_date dstr;
  match tstr with
  | [] => read_datetime y m d 0 0 0 0 None
  | _ =>
      '(h, mi, s, us, tz) ← read_time tstr;
      read_datetime y m d h mi s us tz
  end.

(** ** [str] predicates

    On ASCII the character classes are written out; beyond ASCII they
    are read from the Unicode character database, a parameter here. *)

Record unicode_db : Type := {
  uni_isalpha : codepoint -> bool;
  uni_isupper : codepoint -> bool;
  uni_istitle : codepoint -> bool;
  uni_islower : codepoint -> bool
}.

Section StrMethods.
Variable ucd : unicode_db.

Definition ch_isalpha (c : codepoint) : bool :=
  if c <? 128 then in_range 97 122 c || in_range 65 90 c else uni_isalpha ucd c.

Definition ch_isupper (c : codepoint) : bool :=
  if c <? 128 then in_range 65 90 c else uni_isupper ucd c.

Definition ch_istitle (c : codepoint) : bool :=
  if c <? 128 then false else uni_istitle ucd c.

Definition ch_islower (c : codepoint) : bool :=
  if c <? 128 then in_range 97 122 c else uni_islower ucd c.

(** [str.isalpha]: non-empty and every character alphabetic. *)
Definition str_isalpha (s : text) : bool :=
  match s with
  | [] => false
  | _ => forallb ch_isalpha s
  end.

(** [str.islower]: no upper-case or title-case character, and at least
    one lower-case one. *)
Definition str_islower (s : text) : bool :=
  forallb (fun c => negb (ch_isupper c || ch_istitle c)) s
  && existsb ch_islower s.

End StrMethods.

(** [v.replace(c, "")] for a one-character [c]. *)
Definition str_remove (c : codepoint) (s : text) : text :=
  List.filter (fun x => negb (x =? c)) s.

(** Truth value of a [str]. *)
Definition truthy (s : text) : bool :=
  match s with
  | [] => false
  | _ => true
  end.

Module FlowBase.

Definition msg_endpoint_str : text := txt "Endpoint name must be a string".
Definition msg_endpoint_fmt : text :=
  txt "Endpoint name must contain only letters, numbers, hyphens, and underscores".

(** [FlowBase.validate_endpoint_name] *)
Definition validate_endpoint_name (v : value) : result value :=
  match v with
  | VNone => Ok v
  | VStr s =>
      if negb (re_match_endpoint s)
      then Raise (HTTPException HTTP_422_UNPROCESSABLE_ENTITY msg_endpoint_fmt)
      else Ok v
  | _ => Raise (HTTPException HTTP_422_UNPROCESSABLE_ENTITY msg_endpoint_str)
  end.

Definition msg_color_str : text := txt "Icon background color must be a string".
Definition msg_color_hash : text := txt "Icon background color must start with #".
Definition msg_color_len : text := txt "Icon background color must be 7 characters long".

(** [FlowBase.validate_icon_bg_color] *)
Definition validate_icon_bg_color (v : value) : result value :=
  match v with
  | VNone => Ok v
  | VStr s =>
      if truthy s && negb (startswith HASH s) then Raise (ValueError msg_color_hash)
      else if truthy s && negb (length s =? 7)%nat then Raise (ValueError msg_color_len)
      else Ok v
  | _ => Raise (ValueError msg_color_str)
  end.

Definition msg_invalid_emoji (s : text) : text :=
  txt "Invalid emoji. " ++ s ++ txt " is not a valid emoji.".
Definition msg_icon_lower : text := txt "Icon must be lowercase".
Definition msg_icon_letters : text := txt "Icon must contain only letters and hyphens".

Section Icon.
(** The [emoji] package: [emoji.emojize(v, variant="emoji_type")] and
    [emoji.purely_emoji]. *)
Variable emojize : text -> text.
Variable purely_emoji : text -> bool.
Variable ucd : unicode_db.

(** [FlowBase.validate_icon_atr].  The first component collects what
    [warnings.warn] emitted.  A value that is not a [str] has no
    [startswith]; the [isinstance] test after the emoji branch is then
    never reached with anything but a [str]. *)
Definition validate_icon_atr (v : value) : list text * result value :=
  match v with
  | VNone => ([], Ok v)
  | VStr s =>
      if negb (startswith COLON s) && negb (endswith COLON s) then ([], Ok v)
      else if negb (startswith COLON s) || negb (endswith COLON s)
      then ([], Raise (ValueError (msg_invalid_emoji s)))
      else
        let emoji_value := emojize s in
        let warned := if bool_decide (s = emoji_value)
                      then [msg_invalid_emoji s] else [] in
        let icon := emoji_value in
        (warned,
         if purely_emoji icon then Ok (VStr icon)
         else if truthy s && negb (str_islower ucd s)
         then Raise (ValueError msg_icon_lower)
         else if truthy s && negb (str_isalpha ucd (str_remove HYPHEN s))
         then Raise (ValueError msg_icon_letters)
         else Ok v)
  | _ => ([], Raise AttributeError)
  end.

End Icon.

(** The content of the [data] field: a JSON document.  A [dict] is the
    list of its items; only membership of a key is ever asked. *)
#[local] Unset Elimination Schemes.
Inductive json : Type :=
| JNull
| JBool (b : bool)
| JNum (z : Z)
| JStr (s : text)
| JList (items : list json)
| JDict (items : list (text * json)).
#[local] Set Elimination Schemes.

(** Truth value of a JSON document, as [not v] computes it. *)
Definition json_truthy (v : json) : bool :=
  match v with
  | JNull => false
  | JBool b => b
  | JNum z => negb (z =? 0)%Z
  | JStr s => truthy s
  | JList items => match items with [] => false | _ => true end
  | JDict items => match items with [] => false | _ => true end
  end.

(** [key in v.keys()] *)
Definition has_key (key : text) (items : list (text * json)) : bool :=
  existsb (fun kv => bool_decide (fst kv = key)) items.

Definition msg_json_dict : text := txt "Flow must be a valid JSON".
Definition msg_json_nodes : text := txt "Flow must have nodes".
Definition msg_json_edges : text := txt "Flow must have edges".

(** [FlowBase.validate_json] *)
Definition validate_json (v : json) : result json :=
  if negb (json_truthy v) then Ok v
  else match v with
       | JDict items =>
           if negb (has_key (txt "nodes") items)
           then Raise (ValueError msg_json_nodes)
           else if negb (has_key (txt "edges") items)
           then Raise (ValueError msg_json_edges)
           else Ok v
       | _ => Raise (ValueError msg_json_dict)
       end.

(** [FlowBase.serialize_datetime] *)
Definition serialize_datetime (v : value) : value :=
  match v with
  | VDatetime d =>
      let d := replace_microsecond 0 d in
      let d := match tzinfo d with
               | None => replace_tzinfo (Some timezone_utc) d
               | Some _ => d
               end in
      VStr (isoformat d)
  | _ => v
  end.

Definition msg_fromiso_type : text := txt "fromisoformat: argument must be str".

(** [FlowBase.validate_dt] *)
Definition validate_dt (v : value) : result value :=
  match v with
  | VNone => Ok v
  | VDatetime _ => Ok v
  | VStr s => d ← fromisoformat s; Ok (VDatetime d)
  | _ => Raise (TypeError msg_fromiso_type)
  end.

End FlowBase.

Module FlowUpdate.

(** [FlowUpdate.validate_endpoint_name]: the same body as in [FlowBase]. *)
Definition validate_endpoint_name (v : value) : result value :=
  match v with
  | VNone => Ok v
  | VStr s =>
      if negb (re_match_endpoint s)
      then Raise (HTTPException HTTP_422_UNPROCESSABLE_ENTITY FlowBase.msg_endpoint_fmt)
      else Ok v
  | _ => Raise (HTTPException HTTP_422_UNPROCESSABLE_ENTITY FlowBase.msg_endpoint_str)
  end.

End FlowUpdate.

(** * The database variable service *)

Definition UUID := N.

(** A row of the [variable] table, with the columns the service reads
    and writes. *)
Record VariableRow : Type := mk_variable {
  var_id : UUID;
  var_user_id : UUID;
  var_name : text;
  var_type : text;
  var_value : text;
  var_default_fields : list text;
  var_updated_at : option datetime
}.

Definition set_value (x : text) (v : VariableRow) : VariableRow :=
  mk_variable (var_id v) (var_user_id v) (var_name v) (var_type v) x
              (var_default_fields v) (var_updated_at v).

Definition set_updated_at (t : option datetime) (v : VariableRow) : VariableRow :=
  mk_variable (var_id v) (var_user_id v) (var_name v) (var_type v) (var_value v)
              (var_default_fields v) t.

(** Modelled from the spec: the [VariableUpdate] declaration is not among
    the sources.  A patch says, field by field, whether the field was set
    and to what; [model_dump(exclude_unset=True)] lists the set ones. *)
Record VariableUpdate : Type := mk_update {
  upd_name : option text;
  upd_type : option text;
  upd_value : option text;
  upd_default_fields : option (list text)
}.

(** [for key, value in variable_data.items(): setattr(db_variable, key, value)] *)
Definition apply_patch (p : VariableUpdate) (v : VariableRow) : VariableRow :=
  mk_variable (var_id v) (var_user_id v)
              (default (var_name v) (upd_name p))
              (default (var_type v) (upd_type p))
              (default (var_value v) (upd_value p))
              (default (var_default_fields v) (upd_default_fields p))
              (var_updated_at v).

Definition patch_set_value (x : text) (p : VariableUpdate) : VariableUpdate :=
  mk_update (upd_name p) (upd_type p) (Some x) (upd_default_fields p).

Inductive log_record : Type :=
| LogInfo (msg : text)
| LogDebug (msg : text)
| LogError (var : text) (e : exn).

(** What an operation can change: the committed rows of the table, in
    the order the database returns them, the number of identifiers drawn
    from [uuid4] so far, and the log. *)
Record World : Type := mk_world {
  db : list VariableRow;
  drawn : nat;
  logs : list log_record
}.

Definition with_db (rows : list VariableRow) (w : World) : World :=
  mk_world rows (drawn w) (logs w).

Definition emit (r : log_record) (w : World) : World :=
  mk_world (db w) (drawn w) (logs w ++ [r]).

Record Settings : Type := {
  store_environment_variables : bool;
  variables_to_get_from_environment : list text
}.

(** [str.strip()]: the characters Python counts as white space. *)
Definition is_space (c : codepoint) : bool :=
  in_range 9 13 c || in_range 28 32 c || (c =? 133) || (c =? 160)
  || (c =? 5760) || in_range 8192 8202 c || (c =? 8232) || (c =? 8233)
  || (c =? 8239) || (c =? 8287) || (c =? 12288).

Fixpoint lstrip (s : text) : text :=
  match s with
  | [] => []
  | c :: rest => if is_space c then lstrip rest else s
  end.

Definition strip (s : text) : text := rev (lstrip (rev (lstrip s))).

Definition msg_not_found (name : text) : text := name ++ txt " variable not found.".
Definition msg_credential (name : text) : text :=
  txt "variable " ++ name
  ++ txt " of type 'Credential' cannot be used in a Session ID field because its purpose is to prevent the exposure of values.".

Definition by_user_name (user_id : UUID) (name : text) (v : VariableRow) : bool :=
  (var_user_id v =? user_id) && bool_decide (var_name v = name).

Definition by_id_user (variable_id user_id : UUID) (v : VariableRow) : bool :=
  (var_id v =? variable_id) && (var_user_id v =? user_id).

(** [session.exec(select(Variable).where(...)).first()], with the
    position of the row in the table. *)
Fixpoint first (p : VariableRow -> bool) (rows : list VariableRow)
  : option (nat * VariableRow) :=
  match rows with
  | [] => None
  | v :: rest => if p v then Some (O, v)
                 else '(i, x) ← first p rest; Some (S i, x)
  end.

(** [session.exec(query).one()] *)
Definition one (p : VariableRow -> bool) (rows : list VariableRow)
  : result (nat * VariableRow) :=
  match List.filter p rows with
  | [] => Raise NoResultFound
  | [_] => match first p rows with
           | Some r => Ok r
           | None => Raise NoResultFound
           end
  | _ => Raise MultipleResultsFound
  end.

Module DatabaseVariableService.
Section Service.

(** [auth_utils.encrypt_api_key] and [auth_utils.decrypt_api_key] with
    the service's settings; either may raise. *)
Variable encrypt_api_key : text -> result text.
Variable decrypt_api_key : text -> result text.
(** [langflow.services.variable.constants] *)
Variable CREDENTIAL_TYPE : text.
Variable GENERIC_TYPE : text.
Variable settings : Settings.
(** [os.environ] *)
Variable environ : gmap text text.
(** The identifiers [uuid4] returns, in the order they are drawn. *)
Variable uuid4 : nat -> UUID.

Definition create_variable (user_id : UUID) (name value : text)
    (default_fields : list text) (_type : text) (w : World)
  : World * result VariableRow :=
  match encrypt_api_key value with
  | Raise e => (w, Raise e)
  | Ok encrypted =>
      let variable :=
        mk_variable (uuid4 (drawn w)) user_id name _type encrypted default_fields None in
      (mk_world (db w ++ [variable]) (S (drawn w)) (logs w), Ok variable)
  end.

Definition get_variable (user_id : UUID) (name field : text) (w : World)
  : result text :=
  match first (by_user_name user_id name) (db w) with
  | None => Raise (ValueError (msg_not_found name))
  | Some (_, variable) =>
      if negb (truthy (var_value variable))
      then Raise (ValueError (msg_not_found name))
      else if bool_decide (var_type variable = CREDENTIAL_TYPE)
              && bool_decide (field = txt "session_id")
      then Raise (TypeError (msg_credential name))
      else decrypt_api_key (var_value variable)
  end.

Definition get_all (user_id : UUID) (w : World) : list VariableRow :=
  List.filter (fun v => var_user_id v =? user_id) (db w).

Definition list_variables (user_id : UUID) (w : World) : list text :=
  map var_name (get_all user_id w).

Definition update_variable (user_id : UUID) (name value : text) (w : World)
  : World * result VariableRow :=
  match first (by_user_name user_id name) (db w) with
  | None => (w, Raise (ValueError (msg_not_found name)))
  | Some (i, variable) =>
      match encrypt_api_key value with
      | Raise e => (w, Raise e)
      | Ok encrypted =>
          let variable := set_value encrypted variable in
          (with_db (<[i := variable]> (db w)) w, Ok variable)
      end
  end.

(** Returns the row as committed and the patch object as the call
    leaves it. *)
Definition update_variable_fields (user_id variable_id : UUID)
    (variable : VariableUpdate) (now : datetime) (w : World)
  : World * result (VariableRow * VariableUpdate) :=
  match one (by_id_user variable_id user_id) (db w) with
  | Raise e => (w, Raise e)
  | Ok (i, db_variable) =>
      let db_variable := apply_patch variable db_variable in
      let db_variable := set_updated_at (Some now) db_variable in
      match encrypt_api_key (var_value db_variable) with
      | Raise e => (w, Raise e)
      | Ok encrypted =>
          let variable := patch_set_value encrypted variable in
          (with_db (<[i := db_variable]> (db w)) w, Ok (db_variable, variable))
      end
  end.

Definition delete_variable (user_id : UUID) (name : text) (w : World)
  : World * result unit :=
  match first (by_user_name user_id name) (db w) with
  | None => (w, Raise (ValueError (msg_not_found name)))
  | Some (i, _) => (with_db (delete i (db w)) w, Ok tt)
  end.

Definition msg_id_not_found (variable_id : UUID) (render : UUID -> text) : text :=
  render variable_id ++ txt " variable not found.".

(** [delete_variable_by_id]; [render] is [str] on a [UUID], used only
    in the message. *)
Definition delete_variable_by_id (render : UUID -> text)
    (user_id variable_id : UUID) (w : World) : World * result unit :=
  match first (fun v => (var_user_id v =? user_id) && (var_id v =? variable_id)) (db w) with
  | None => (w, Raise (ValueError (msg_id_not_found variable_id render)))
  | Some (i, _) => (with_db (delete i (db w)) w, Ok tt)
  end.

(** The body of the [for var in ...] loop of [initialize_user_variables]
    and the loop itself. *)
Fixpoint initialize_loop (user_id : UUID) (vars : list text) (w : World)
  : World * result unit :=
  match vars with
  | [] => (w, Ok tt)
  | var :: rest =>
      match environ !! var with
      | None => initialize_loop user_id rest w
      | Some raw =>
          let w := emit (LogDebug (txt "Creating " ++ var ++ txt " variable from environment.")) w in
          match first (by_user_name user_id var) (db w) with
          | Some (i, found_variable) =>
              let value := strip raw in
              match encrypt_api_key value with
              | Raise e => (w, Raise e)
              | Ok encrypted =>
                  let found_variable := set_value encrypted found_variable in
                  initialize_loop user_id rest
                    (with_db (<[i := found_variable]> (db w)) w)
              end
          | None =>
              let value := strip raw in
              match create_variable user_id var value [] CREDENTIAL_TYPE w with
              | (w, Ok _) => initialize_loop user_id rest w
              | (w, Raise e) => initialize_loop user_id rest (emit (LogError var e) w)
              end
          end
      end
  end.

Definition initialize_user_variables (user_id : UUID) (w : World)
  : World * result unit :=
  let should_or_should_not :=
    if store_environment_variables settings then txt "Should" else txt "Should not" in
  let w := emit (LogInfo (should_or_should_not
                          ++ txt " store environment variables in the database.")) w in
  if store_environment_variables settings
  then initialize_loop user_id (variables_to_get_from_environment settings) w
  else (emit (LogInfo (txt "Skipping environment variable storage.")) w, Ok tt).

(** The encryption-at-rest invariant: every committed row holds the
    output of [encrypt_api_key] on some plaintext. *)
Definition encrypted_at_rest (rows : list VariableRow) : Prop :=
  Forall (fun v => exists plaintext, encrypt_api_key plaintext = Ok (var_value v)) rows.

End Service.
End DatabaseVariableService.

(** * A stand-in cipher and a small table for worked examples

    The stand-in writes a fixed marker in front of the plaintext, and,
    like [str.encode], refuses a text that holds a surrogate code point
    (which [os.environ] produces for bytes that are not UTF-8). *)

Definition MARKER : text := txt "gAAAAA".

Definition is_surrogate (c : codepoint) : bool := in_range 55296 57343 c.

Definition sample_encrypt (plaintext : text) : result text :=
  if existsb is_surrogate plaintext
  then Raise (ExternalError (txt "UnicodeEncodeError"))
  else Ok (MARKER ++ plaintext).

Fixpoint strip_prefix (pre s : text) : option text :=
  match pre, s with
  | [], _ => Some s
  | a :: pre', b :: s' => if a =? b then strip_prefix pre' s' else None
  | _ :: _, [] => None
  end.

Definition sample_decrypt (ciphertext : text) : result text :=
  match strip_prefix MARKER ciphertext with
  | Some plaintext => Ok plaintext
  | None => Raise (ExternalError (txt "InvalidToken"))
  end.

Definition CREDENTIAL : text := txt "Credential".
Definition GENERIC : text := txt "Generic".

Definition new_year : datetime := mk_datetime 2024 1 1 0 0 0 0 (Some timezone_utc).
Definition midsummer : datetime := mk_datetime 2024 6 21 12 0 0 0 (Some timezone_utc).

Definition sample_row : VariableRow :=
  mk_variable 7 1 (txt "OPENAI_API_KEY") CREDENTIAL (MARKER ++ txt "old") []
              (Some new_year).

Definition sample_world : World := mk_world [sample_row] 0 [].

Definition empty_world : World := mk_world [] 0 [].

Definition secret_patch : VariableUpdate :=
  mk_update None None (Some (txt "secret123")) None.

(** A lone surrogate, as [os.environ] holds one for a byte that is not
    UTF-8. *)
Definition undecodable : text := [56448].

Definition sample_settings : Settings :=
  {| store_environment_variables := true;
     variables_to_get_from_environment :=
       [txt "OPENAI_API_KEY"; txt "ANTHROPIC_API_KEY"] |}.

Definition sample_environ : gmap text text :=
  <[txt "OPENAI_API_KEY" := undecodable]>
    (<[txt "ANTHROPIC_API_KEY" := txt " sk-ant "]> ∅).

(** The texts the endpoint pattern lets through: a non-empty run of
    class characters, optionally followed by one final newline. *)
Definition endpoint_shape (s : text) : Prop :=
  exists run, run <> [] /\ forallb endpoint_class run = true
              /\ (s = run \/ s = run ++ [NEWLINE]).

(** A [datetime] cut to whole seconds, with UTC as its offset when it
    had none: what is left of a value after serialisation. *)
Definition truncated (d : datetime) : datetime :=
  mk_datetime (year d) (month d) (day d) (hour d) (minute d) (second d) 0
              (Some (default timezone_utc (tzinfo d))).

(** No two rows of the table share owner and name. *)
Definition names_unique (rows : list VariableRow) : Prop :=
  NoDup ((fun v => (var_user_id v, var_name v)) <$> rows).


(** An environment in which only [ANTHROPIC_API_KEY] is set. *)
Definition clean_environ : gmap text text :=
  <[txt "ANTHROPIC_API_KEY" := txt " sk-ant "]> ∅.

(** * Statements read literally, for comparison with the code *)

(** The colour rule read literally: whatever non-null value the
    validator lets through is a text of seven characters that starts
    with [#]. *)
Definition icon_bg_color_rule_as_stated : Prop :=
  forall v r, v <> VNone -> FlowBase.validate_icon_bg_color v = Ok r ->
    exists s, v = VStr s /\ startswith HASH s = true /\ length s = 7%nat.

(** The [get_variable] rule read literally, for a decryption that
    always succeeds: the not-found error exactly when nothing matches
    or the stored value is empty, the credential error exactly when the
    matched row is a credential and the field is [session_id], and the
    decrypted value otherwise. *)
Definition get_variable_rule_as_stated : Prop :=
  forall (decrypt : text -> result text) (CREDENTIAL_TYPE : text) (w : World)
         (user_id : UUID) (name field : text),
    (forall c, exists p, decrypt c = Ok p) ->
    let r := DatabaseVariableService.get_variable decrypt CREDENTIAL_TYPE
               user_id name field w in
    let found := first (by_user_name user_id name) (db w) in
    (r = Raise (ValueError (msg_not_found name))
     <-> (found = None \/ exists i v, found = Some (i, v) /\ var_value v = []))
    /\ (r = Raise (TypeError (msg_credential name))
        <-> exists i v, found = Some (i, v) /\ var_type v = CREDENTIAL_TYPE
                        /\ field = txt "session_id")
    /\ (forall i v, found = Some (i, v) -> var_value v <> [] ->
          ~ (var_type v = CREDENTIAL_TYPE /\ field = txt "session_id") ->
          r = decrypt (var_value v)).

(** The round trip read literally: whatever the table holds, with a
    decryption that inverts the encryption and an encryption that never
    returns its input. *)
Definition round_trip_as_stated : Prop :=
  forall (encrypt decrypt : text -> result text) (CREDENTIAL_TYPE : text)
         (uuid4 : nat -> UUID) (w : World) (user_id : UUID)
         (name plaintext : text) (fields : list text) (_type field : text),
    (forall p, exists c, encrypt p = Ok c /\ decrypt c = Ok p) ->
    (forall p, encrypt p <> Ok p) ->
    field <> txt "session_id" ->
    exists w' row,
      DatabaseVariableService.create_variable encrypt uuid4 user_id name plaintext
        fields _type w = (w', Ok row)
      /\ DatabaseVariableService.get_variable decrypt CREDENTIAL_TYPE
           user_id name field w' = Ok plaintext
      /\ var_value row <> plaintext.

(** A cipher that inverts and never returns its input, and yet maps one
    plaintext to the empty text. *)
Definition blanking_encrypt (plaintext : text) : result text :=
  Ok (if bool_decide (plaintext = txt "a") then [] else 103 :: plaintext).

Definition blanking_decrypt (ciphertext : text) : result text :=
  match ciphertext with
  | [] => Ok (txt "a")
  | _ :: plaintext => Ok plaintext
  end.

Definition blank_credential : VariableRow :=
  mk_variable 7 1 (txt "OPENAI_API_KEY") CREDENTIAL [] [] None.

(** What [fromisoformat] makes of an offset that [isoformat] wrote: UTC
    when the offset is less than one second either way, the offset
    itself otherwise. *)
Definition offset_read_back (o : Z) : Z :=
  if (Z.abs o <? SECOND_US)%Z then timezone_utc else o.

Definition read_back (d : datetime) : datetime :=
  replace_tzinfo (offset_read_back <$> tzinfo d) d.

(** The [updated_at] round trip read literally: serialising any
    [datetime] and parsing the text again gives the value cut to whole
    seconds, with its own offset, or with UTC when it had none. *)
Definition updated_at_round_trip_as_stated : Prop :=
  forall d : datetime,
    valid_datetime d = true ->
    FlowBase.validate_dt (FlowBase.serialize_datetime (VDatetime d))
    = Ok (VDatetime (truncated d)).

(** [datetime(2024, 5, 29, 17, 57, 17,
    tzinfo=timezone(timedelta(microseconds=500000)))]: a clock half a
    second ahead of UTC. *)
Definition half_second_ahead : datetime :=
  mk_datetime 2024 5 29 17 57 17 0 (Some 500000%Z).

(*END-STATEMENTS*)

(** * Properties of the Flow validators *)

Section EndpointName.

Lemma re_class_star_dollar_all (s : text) :
  forallb endpoint_class s = true -> re_class_star_dollar s = true.
Proof.
  induction s as [|c s IH]; simpl; [reflexivity|].
  intros [Hc Hs]%andb_prop. rewrite Hc, (IH Hs). reflexivity.
Qed.

Lemma re_class_star_dollar_inv (s : text) :
  re_class_star_dollar s = true ->
  exists run, forallb endpoint_class run = true
              /\ (s = run \/ s = run ++ [NEWLINE]).
Proof.
  induction s as [|c s IH]; simpl.
  - intros _. exists []. split; [reflexivity | left; reflexivity].
  - intros [[Hc Hs]%andb_prop | Hd]%orb_prop.
    + destruct (IH Hs) as (run & Hrun & Hshape).
      exists (c :: run). split; [simpl; rewrite Hc, Hrun; reflexivity|].
      destruct Hshape as [-> | ->]; [left | right]; reflexivity.
    + destruct s as [|c' s']; [|discriminate].
      apply N.eqb_eq in Hd. subst c.
      exists []. split; [reflexivity | right; reflexivity].
Qed.

(** What the pattern accepts: a non-empty run of class characters,
    optionally followed by one final newline. *)
Lemma re_match_endpoint_spec (s : text) :
  re_match_endpoint s = true <->
  exists run, run <> [] /\ forallb endpoint_class run = true
              /\ (s = run \/ s = run ++ [NEWLINE]).
Proof.
  split.
  - destruct s as [|c s]; simpl; [discriminate|].
    intros [Hc Hs]%andb_prop.
    destruct (re_class_star_dollar_inv s Hs) as (run & Hrun & Hshape).
    exists (c :: run). split; [discriminate|].
    split; [simpl; rewrite Hc, Hrun; reflexivity|].
    destruct Hshape as [-> | ->]; [left | right]; reflexivity.
  - intros (run & Hne & Hrun & Hshape).
    destruct run as [|c run]; [contradiction|].
    simpl in Hrun. apply andb_prop in Hrun as [Hc Hrun].
    destruct Hshape as [-> | ->]; simpl; rewrite Hc; simpl.
    + apply re_class_star_dollar_all, Hrun.
    + clear Hc Hne. induction run as [|x run IH]; simpl; [reflexivity|].
      simpl in Hrun. apply andb_prop in Hrun as [Hx Hrun].
      rewrite Hx, (IH Hrun). reflexivity.
Qed.

(** Every non-empty text of class characters is returned unchanged, by
    both validators. *)
Lemma validate_endpoint_name_accepts (s : text) :
  s <> [] -> forallb endpoint_class s = true ->
  FlowBase.validate_endpoint_name (VStr s) = Ok (VStr s)
  /\ FlowUpdate.validate_endpoint_name (VStr s) = Ok (VStr s).
Proof.
  intros Hne Hall.
  assert (Hm : re_match_endpoint s = true).
  { apply re_match_endpoint_spec. exists s. auto. }
  unfold FlowBase.validate_endpoint_name, FlowUpdate.validate_endpoint_name.
  rewrite Hm. split; reflexivity.
Qed.

Lemma validate_endpoint_name_none :
  FlowBase.validate_endpoint_name VNone = Ok VNone
  /\ FlowUpdate.validate_endpoint_name VNone = Ok VNone.
Proof. split; reflexivity. Qed.

End EndpointName.

(** C4 (the code departs from the claim): the text ["abc\n"] contains a
    newline, a character outside [[A-Za-z0-9_-]], and yet both
    [validate_endpoint_name] validators return it unchanged instead of
    raising the 422 format error. *)
Theorem C4_trailing_newline_accepted :
  let s := txt "abc" ++ [NEWLINE] in
  existsb (fun c => negb (endpoint_class c)) s = true
  /\ FlowBase.validate_endpoint_name (VStr s) = Ok (VStr s)
  /\ FlowUpdate.validate_endpoint_name (VStr s) = Ok (VStr s).
Proof. repeat split. Qed.

(** C7: an icon text that neither starts nor ends with a colon is
    returned unchanged, with no warning and no further check; a text
    with a colon at exactly one of its two ends raises the invalid-emoji
    error. *)
Theorem C7_icon_colon_rule
    (emojize : text -> text) (purely_emoji : text -> bool) (ucd : unicode_db)
    (s : text) :
  (startswith COLON s = false -> endswith COLON s = false ->
   FlowBase.validate_icon_atr emojize purely_emoji ucd (VStr s) = ([], Ok (VStr s)))
  /\ (startswith COLON s <> endswith COLON s ->
      FlowBase.validate_icon_atr emojize purely_emoji ucd (VStr s)
      = ([], Raise (ValueError (FlowBase.msg_invalid_emoji s)))).
Proof.
  unfold FlowBase.validate_icon_atr. split.
  - intros -> ->. reflexivity.
  - destruct (startswith COLON s), (endswith COLON s); intros H;
      try reflexivity; contradiction.
Qed.

Lemma C7_icon_colon_rule_witness :
  FlowBase.validate_icon_atr (fun s => s) (fun _ => false)
      (Build_unicode_db (fun _ => false) (fun _ => false) (fun _ => false) (fun _ => false))
      (VStr (txt "rocket")) = ([], Ok (VStr (txt "rocket")))
  /\ FlowBase.validate_icon_atr (fun s => s) (fun _ => false)
      (Build_unicode_db (fun _ => false) (fun _ => false) (fun _ => false) (fun _ => false))
      (VStr (txt ":rocket"))
      = ([], Raise (ValueError (FlowBase.msg_invalid_emoji (txt ":rocket")))).
Proof.
  split.
  - apply (C7_icon_colon_rule _ _ _ (txt "rocket")); reflexivity.
  - apply (C7_icon_colon_rule _ _ _ (txt ":rocket")). simpl. discriminate.
Defined.

(** ** Icon background colour *)

(** C8 (counterexample): the empty text is non-null, does not start
    with [#] and is not seven characters long, and the validator accepts
    it: both tests are guarded by the truth value of the text. *)
Lemma C8_empty_text_accepted : ~ icon_bg_color_rule_as_stated.
Proof.
  intros H.
  destruct (H (VStr []) (VStr []) ltac:(discriminate) eq_refl)
    as (s & Hv & _ & Hlen).
  injection Hv as <-. discriminate Hlen.
Qed.

(** C8 (amended): a value that is neither null nor text raises the
    must-be-a-string error; a non-empty text that does not start with
    [#] raises the must-start-with-# error; a text that starts with [#]
    and is not seven characters long raises the length error; every
    seven-character text that starts with [#] is returned unchanged,
    whatever its other six characters; and the empty text is returned
    unchanged as well. *)
Theorem C8_icon_bg_color_rule :
  (forall v, v <> VNone -> (forall s, v <> VStr s) ->
     FlowBase.validate_icon_bg_color v = Raise (ValueError FlowBase.msg_color_str))
  /\ (forall s, s <> [] -> startswith HASH s = false ->
     FlowBase.validate_icon_bg_color (VStr s) = Raise (ValueError FlowBase.msg_color_hash))
  /\ (forall s, startswith HASH s = true -> length s <> 7%nat ->
     FlowBase.validate_icon_bg_color (VStr s) = Raise (ValueError FlowBase.msg_color_len))
  /\ (forall s, startswith HASH s = true -> length s = 7%nat ->
     FlowBase.validate_icon_bg_color (VStr s) = Ok (VStr s))
  /\ FlowBase.validate_icon_bg_color (VStr []) = Ok (VStr []).
Proof.
  repeat split.
  - intros [] Hn Hs; try reflexivity; [contradiction | exfalso; eapply Hs; reflexivity].
  - intros [|c s] Hne Hh; [contradiction|].
    unfold FlowBase.validate_icon_bg_color. rewrite Hh. reflexivity.
  - intros [|c s] Hh Hl; [discriminate|].
    unfold FlowBase.validate_icon_bg_color. rewrite Hh.
    apply Nat.eqb_neq in Hl. rewrite Hl. reflexivity.
  - intros [|c s] Hh Hl; [discriminate|].
    unfold FlowBase.validate_icon_bg_color. rewrite Hh.
    apply Nat.eqb_eq in Hl. rewrite Hl. reflexivity.
Qed.

Lemma C8_icon_bg_color_rule_witness :
  FlowBase.validate_icon_bg_color (VInt 7) = Raise (ValueError FlowBase.msg_color_str)
  /\ FlowBase.validate_icon_bg_color (VStr (txt "1a2b3c"))
     = Raise (ValueError FlowBase.msg_color_hash)
  /\ FlowBase.validate_icon_bg_color (VStr (txt "#1a2b3"))
     = Raise (ValueError FlowBase.msg_color_len)
  /\ FlowBase.validate_icon_bg_color (VStr (txt "#1a2b3c")) = Ok (VStr (txt "#1a2b3c"))
  /\ FlowBase.validate_icon_bg_color (VStr (txt "#zzzzzz")) = Ok (VStr (txt "#zzzzzz")).
Proof.
  destruct C8_icon_bg_color_rule as (Hstr & Hhash & Hlen & Hok & _).
  split; [|split; [|split; [|split]]].
  - apply Hstr; [discriminate | intros s; discriminate].
  - apply Hhash; [discriminate | reflexivity].
  - apply Hlen; [reflexivity | simpl; lia].
  - apply Hok; reflexivity.
  - apply Hok; reflexivity.
Defined.

(** ** Named emoji that do not resolve *)

Lemma str_isalpha_elem (ucd : unicode_db) (s : text) (c : codepoint) :
  c ∈ s -> ch_isalpha ucd c = false -> str_isalpha ucd s = false.
Proof.
  intros Hin Hc. destruct s as [|x s]; [reflexivity|].
  unfold str_isalpha. apply not_true_is_false. intros Hall.
  rewrite forallb_forall in Hall.
  rewrite (Hall c) in Hc; [discriminate|]. apply list_elem_of_In, Hin.
Qed.

Lemma startswith_elem (c : codepoint) (s : text) :
  startswith c s = true -> c ∈ s.
Proof.
  destruct s as [|x s]; simpl; [discriminate|].
  intros ->%N.eqb_eq. apply list_elem_of_here.
Qed.

Lemma str_remove_keeps (c x : codepoint) (s : text) :
  x ∈ s -> x <> c -> x ∈ str_remove c s.
Proof.
  intros Hin Hne. unfold str_remove.
  apply list_elem_of_In, filter_In. split; [apply list_elem_of_In, Hin|].
  apply negb_true_iff, N.eqb_neq, Hne.
Qed.

(** C10: an icon text with a colon at both ends whose resolution through
    the emoji table is not a pure emoji is always rejected: the fallback
    test runs on the original text, whose colons are not letters, so the
    letters-and-hyphens test cannot succeed. *)
Theorem C10_unresolved_named_emoji_rejected
    (emojize : text -> text) (purely_emoji : text -> bool) (ucd : unicode_db)
    (s : text) :
  startswith COLON s = true -> endswith COLON s = true ->
  purely_emoji (emojize s) = false ->
  str_isalpha ucd (str_remove HYPHEN s) = false
  /\ exists msg,
       snd (FlowBase.validate_icon_atr emojize purely_emoji ucd (VStr s))
       = Raise (ValueError msg).
Proof.
  intros Hs He Hp.
  assert (Halpha : str_isalpha ucd (str_remove HYPHEN s) = false).
  { apply (str_isalpha_elem ucd _ COLON); [|reflexivity].
    apply str_remove_keeps; [apply startswith_elem, Hs | discriminate]. }
  split; [exact Halpha|].
  unfold FlowBase.validate_icon_atr. rewrite Hs, He. simpl. rewrite Hp.
  destruct s as [|c s]; [discriminate|]. cbn [truthy andb].
  destruct (str_islower ucd (c :: s)); cbn [negb].
  - rewrite Halpha. eexists; reflexivity.
  - eexists; reflexivity.
Qed.

Lemma C10_unresolved_named_emoji_rejected_witness :
  exists msg,
    snd (FlowBase.validate_icon_atr (fun s => s) (fun _ => false)
           (Build_unicode_db (fun _ => false) (fun _ => false) (fun _ => false)
                             (fun _ => false))
           (VStr (txt ":not-a-real-emoji:")))
    = Raise (ValueError msg).
Proof.
  apply (C10_unresolved_named_emoji_rejected _ _ _ (txt ":not-a-real-emoji:"));
    reflexivity.
Defined.

(** ** [updated_at]: serialising and parsing again *)

(** *** The reader inverts [isoformat] *)

Section IsoFormat.

Lemma zfill_length (k : nat) (n : N) : length (zfill k n) = k.
Proof.
  revert n. induction k as [|k IH]; intros n; simpl; [reflexivity|].
  rewrite length_app, IH. simpl. lia.
Qed.

Lemma read_digit_digit (d : N) : d < 10 -> read_digit (DIGIT0 + d) = Some d.
Proof.
  intros Hd. unfold read_digit, in_range, DIGIT0.
  replace (48 <=? 48 + d) with true by (symmetry; apply N.leb_le; lia).
  replace (48 + d <=? 57) with true by (symmetry; apply N.leb_le; lia).
  simpl. f_equal. lia.
Qed.

Lemma read_digits_acc_app (acc : N) (s1 s2 : text) :
  read_digits_acc acc (s1 ++ s2)
  = match read_digits_acc acc s1 with
    | Some a => read_digits_acc a s2
    | None => None
    end.
Proof.
  revert acc. induction s1 as [|c s1 IH]; intros acc; simpl; [reflexivity|].
  destruct (read_digit c); [apply IH | reflexivity].
Qed.

Lemma read_digits_acc_zfill (k : nat) (n acc : N) :
  n < 10 ^ N.of_nat k ->
  read_digits_acc acc (zfill k n) = Some (acc * 10 ^ N.of_nat k + n).
Proof.
  revert n acc. induction k as [|k IH]; intros n acc Hn.
  - simpl in *. f_equal. lia.
  - rewrite Nat2N.inj_succ, N.pow_succ_r' in *.
    cbn [zfill]. rewrite read_digits_acc_app, IH.
    + cbn [read_digits_acc].
      rewrite read_digit_digit by (apply N.mod_lt; lia).
      f_equal. pose proof (N.div_mod n 10 ltac:(lia)). lia.
    + apply N.Div0.div_lt_upper_bound. lia.
Qed.

Lemma read_int_zfill (k : nat) (n : N) :
  k <> O -> n < 10 ^ N.of_nat k -> read_int (zfill k n) = Ok n.
Proof.
  intros Hk Hn. unfold read_int, read_digits.
  destruct (zfill k n) eqn:E.
  - apply (f_equal length) in E. rewrite zfill_length in E. simpl in E. lia.
  - rewrite <- E, read_digits_acc_zfill by exact Hn. f_equal.
Qed.

Lemma read_two_digits_zfill (n : N) (rest : text) :
  n < 100 -> read_two_digits (zfill 2 n ++ rest) = Ok (n, rest).
Proof.
  intros Hn. unfold read_two_digits.
  rewrite length_app, zfill_length. cbn [Nat.ltb Nat.leb Nat.add].
  rewrite take_app_length' by (rewrite zfill_length; reflexivity).
  rewrite drop_app_length' by (rewrite zfill_length; reflexivity).
  rewrite read_int_zfill by (try discriminate; exact Hn). reflexivity.
Qed.

Lemma read_fraction_zfill (us : N) :
  us < 1000000 ->
  read_fraction (if us =? 0 then [] else [DOT] ++ zfill 6 us) = Ok us.
Proof.
  intros Hus. destruct (us =? 0) eqn:E.
  - apply N.eqb_eq in E. subst us. reflexivity.
  - cbn [app read_fraction]. rewrite N.eqb_refl. cbn [negb].
    rewrite zfill_length. cbn [Nat.eqb orb].
    apply read_int_zfill; [discriminate | exact Hus].
Qed.

Lemma zfill2_app_nonempty (n : N) (rest : text) : zfill 2 n ++ rest <> [].
Proof.
  intros E. apply (f_equal length) in E.
  rewrite length_app, zfill_length in E. discriminate.
Qed.

(** [HH:MM:SS[.ffffff]] parses to its four fields. *)
Lemma read_hh_mm_ss_ff_full (h m s us : N) :
  h < 100 -> m < 100 -> s < 100 -> us < 1000000 ->
  read_hh_mm_ss_ff
    (zfill 2 h ++ [COLON] ++ zfill 2 m ++ [COLON] ++ zfill 2 s
     ++ (if us =? 0 then [] else [DOT] ++ zfill 6 us))
  = Ok (h, m, s, us).
Proof.
  intros Hh Hm Hs Hus. unfold read_hh_mm_ss_ff.
  rewrite read_two_digits_zfill by exact Hh. cbn [mbind result_bind app read_char].
  rewrite N.eqb_refl. cbn [mbind result_bind].
  rewrite read_two_digits_zfill by exact Hm.
  cbn [mbind result_bind app read_char]. rewrite N.eqb_refl. cbn [mbind result_bind].
  rewrite read_two_digits_zfill by exact Hs. cbn [mbind result_bind].
  rewrite read_fraction_zfill by exact Hus. reflexivity.
Qed.

(** [HH:MM] parses with zero seconds and microseconds. *)
Lemma read_hh_mm_ss_ff_short (h m : N) :
  h < 100 -> m < 100 ->
  read_hh_mm_ss_ff (zfill 2 h ++ [COLON] ++ zfill 2 m) = Ok (h, m, 0, 0).
Proof.
  intros Hh Hm. unfold read_hh_mm_ss_ff.
  rewrite read_two_digits_zfill by exact Hh. cbn [mbind result_bind app read_char].
  rewrite N.eqb_refl. cbn [mbind result_bind].
  rewrite <- (app_nil_r (zfill 2 m)).
  rewrite read_two_digits_zfill by exact Hm. reflexivity.
Qed.


Lemma zfill_plain (k : nat) (n : N) : Forall plain (zfill k n).
Proof.
  revert n. induction k as [|k IH]; intros n; cbn [zfill]; [constructor|].
  apply Forall_app. split; [apply IH|].
  constructor; [|constructor].
  unfold plain, DIGIT0, HYPHEN, PLUS.
  generalize (n mod 10). intros d. split; lia.
Qed.

Lemma colon_plain : plain COLON.
Proof. split; discriminate. Qed.

Lemma dot_plain : plain DOT.
Proof. split; discriminate. Qed.

Lemma format_time_plain (h m s us : N) : Forall plain (format_time h m s us).
Proof.
  unfold format_time. rewrite !Forall_app, !Forall_singleton.
  pose proof colon_plain. pose proof (zfill_plain 2).
  repeat (split; [solve [auto]|]).
  destruct (us =? 0); [constructor|].
  rewrite Forall_app, Forall_singleton.
  split; [apply dot_plain | apply zfill_plain].
Qed.

Lemma find_app_absent (c : codepoint) (s1 s2 : text) :
  Forall (fun x => x <> c) s1 ->
  find c (s1 ++ s2) = Nat.add (length s1) <$> find c s2.
Proof.
  induction 1 as [|x s1 Hx _ IH]; cbn [app find length].
  - destruct (find c s2); reflexivity.
  - apply N.eqb_neq in Hx. rewrite Hx, IH.
    destruct (find c s2); reflexivity.
Qed.

Lemma find_absent (c : codepoint) (s : text) :
  Forall (fun x => x <> c) s -> find c s = None.
Proof.
  intros H. rewrite <- (app_nil_r s), find_app_absent by exact H. reflexivity.
Qed.

Lemma plain_no_hyphen (s : text) : Forall plain s -> Forall (fun x => x <> HYPHEN) s.
Proof. intros H. eapply Forall_impl; [exact H|]. intros x [Hx _]. exact Hx. Qed.

Lemma plain_no_plus (s : text) : Forall plain s -> Forall (fun x => x <> PLUS) s.
Proof. intros H. eapply Forall_impl; [exact H|]. intros x [_ Hx]. exact Hx. Qed.

Lemma find_sign_none (s : text) : Forall plain s -> find_sign s = None.
Proof.
  intros H. unfold find_sign.
  rewrite (find_absent HYPHEN) by (apply plain_no_hyphen, H).
  apply find_absent, plain_no_plus, H.
Qed.

Lemma find_sign_at (s rest : text) (sign : codepoint) :
  Forall plain s -> Forall plain rest -> sign = HYPHEN \/ sign = PLUS ->
  find_sign (s ++ sign :: rest) = Some (length s).
Proof.
  intros Hs Hrest Hsign. unfold find_sign.
  rewrite (find_app_absent HYPHEN) by (apply plain_no_hyphen, Hs).
  destruct Hsign as [-> | ->]; cbn [find].
  - rewrite N.eqb_refl. cbn. f_equal. lia.
  - change (PLUS =? HYPHEN) with false. cbn match.
    rewrite (find_absent HYPHEN) by (apply plain_no_hyphen, Hrest). cbn.
    rewrite (find_app_absent PLUS) by (apply plain_no_plus, Hs).
    cbn [find]. rewrite N.eqb_refl. cbn. f_equal. lia.
Qed.


Ltac plain_tac :=
  repeat first [rewrite Forall_app | rewrite Forall_cons | rewrite Forall_nil];
  repeat split; auto.

Lemma offset_of_neg (neg : bool) (c : N * N * N * N) :
  offset_of neg c = if neg then (- offset_of false c)%Z else offset_of false c.
Proof. destruct c as [[[hh mm] ss] us], neg; reflexivity. Qed.

(** The text [format_offset] emits: a sign, then a body that
    [read_hh_mm_ss_ff] reads back to the same offset. *)
Lemma format_offset_shape (o : Z) :
  check_offset o = true ->
  exists sign body c,
    format_offset (Some o) = sign :: body
    /\ (sign = HYPHEN \/ sign = PLUS)
    /\ (sign =? HYPHEN) = (o <? 0)%Z
    /\ Forall plain body
    /\ (length body = 5 \/ length body = 8 \/ length body = 15)%nat
    /\ read_hh_mm_ss_ff body = Ok c
    /\ offset_of (o <? 0)%Z c = o.
Proof.
  unfold check_offset, DAY_US. intros [Hlo Hhi]%andb_prop.
  apply Z.ltb_lt in Hlo, Hhi.
  unfold format_offset.
  change (Z.to_N HOUR_US) with 3600000000.
  change (Z.to_N MINUTE_US) with 60000000.
  change (Z.to_N SECOND_US) with 1000000.
  set (a := Z.to_N (Z.abs o)).
  assert (Ha : a < 86400000000) by (unfold a; lia).
  assert (Hao : Z.of_N a = Z.abs o) by (unfold a; lia).
  set (hh := a / 3600000000). set (r := a mod 3600000000).
  set (mm := r / 60000000). set (ss := r mod 60000000).
  set (sec := ss / 1000000). set (usec := ss mod 1000000).
  pose proof (N.div_mod a 3600000000 ltac:(lia)) as E1.
  pose proof (N.div_mod r 60000000 ltac:(lia)) as E2.
  pose proof (N.div_mod ss 1000000 ltac:(lia)) as E3.
  fold hh r in E1. fold mm ss in E2. fold sec usec in E3.
  assert (Hr : r < 3600000000) by (apply N.mod_lt; lia).
  assert (Hss : ss < 60000000) by (apply N.mod_lt; lia).
  assert (Hus : usec < 1000000) by (apply N.mod_lt; lia).
  assert (Hhh : hh < 100) by lia.
  assert (Hmm : mm < 100) by lia.
  assert (Hsec : sec < 100) by lia.
  cbv zeta.
  exists (if (o <? 0)%Z then HYPHEN else PLUS).
  eexists. 
  exists (if ss =? 0 then (hh, mm, 0, 0) else (hh, mm, sec, usec)).
  split; [cbn [app]; reflexivity|].
  split; [destruct (o <? 0)%Z; auto|].
  split; [destruct (o <? 0)%Z; reflexivity|].
  pose proof colon_plain. pose proof dot_plain. pose proof (zfill_plain 2).
  pose proof (zfill_plain 6).
  destruct (ss =? 0) eqn:Ess.
  - apply N.eqb_eq in Ess.
    split; [plain_tac|].
    split; [rewrite !length_app, !zfill_length; cbn; auto|].
    rewrite app_nil_r.
    split; [apply read_hh_mm_ss_ff_short; assumption|].
    rewrite offset_of_neg. unfold offset_of, HOUR_US, MINUTE_US, SECOND_US.
    destruct (o <? 0)%Z eqn:Eo;
      [apply Z.ltb_lt in Eo | apply Z.ltb_ge in Eo]; lia.
  - split.
    { destruct (usec =? 0); plain_tac. }
    split.
    { destruct (usec =? 0); rewrite !length_app, !zfill_length; cbn; auto. }
    split; [apply read_hh_mm_ss_ff_full; assumption|].
    rewrite offset_of_neg. unfold offset_of, HOUR_US, MINUTE_US, SECOND_US.
    destruct (o <? 0)%Z eqn:Eo;
      [apply Z.ltb_lt in Eo | apply Z.ltb_ge in Eo]; lia.
Qed.


Lemma format_time_length (h m s us : N) : (8 <= length (format_time h m s us))%nat.
Proof.
  unfold format_time. rewrite !length_app, !zfill_length. cbn. lia.
Qed.

Lemma check_time_fields_bounds (h mi s us : N) :
  check_time_fields h mi s us = true ->
  h < 100 /\ mi < 100 /\ s < 100 /\ us < 1000000.
Proof.
  unfold check_time_fields.
  intros [[[Hh Hm]%andb_prop Hs]%andb_prop Hus]%andb_prop.
  apply N.leb_le in Hh, Hm, Hs, Hus. lia.
Qed.

Lemma read_format_time (h mi s us : N) :
  check_time_fields h mi s us = true ->
  read_hh_mm_ss_ff (format_time h mi s us) = Ok (h, mi, s, us).
Proof.
  intros (Hh & Hm & Hs & Hus)%check_time_fields_bounds.
  apply read_hh_mm_ss_ff_full; assumption.
Qed.

(** [_parse_isoformat_time] reads back what [isoformat] wrote after the
    separator. *)
Lemma read_time_format (h mi s us : N) (tz : option Z) :
  check_time_fields h mi s us = true ->
  match tz with
  | None => True
  | Some o => check_offset o = true
  end ->
  read_time (format_time h mi s us ++ format_offset tz)
  = Ok (h, mi, s, us, tz).
Proof.
  intros Ht Htz. unfold read_time.
  pose proof (format_time_length h mi s us) as Hlen.
  pose proof (format_time_plain h mi s us) as Hplain.
  assert (Hlt : (length (format_time h mi s us ++ format_offset tz) <? 2)%nat = false).
  { apply Nat.ltb_ge. rewrite length_app. lia. }
  rewrite Hlt. clear Hlt.
  destruct tz as [o|].
  - destruct (format_offset_shape o Htz)
      as (sign & body & c & -> & Hsign & Hneg & Hbody & Hl & Hparse & Hoff).
    rewrite find_sign_at by assumption.
    unfold text, codepoint in *.
    rewrite list_lookup_middle by reflexivity.
    rewrite take_app_length.
    rewrite read_format_time by exact Ht. cbn [mbind result_bind].
    rewrite (cons_middle sign), app_assoc.
    rewrite drop_app_length' by (rewrite length_app, Nat.add_1_r; reflexivity).
    assert (Hl' : ((length body =? 5) || (length body =? 8) || (length body =? 15))%nat
                  = true).
    { destruct Hl as [-> | [-> | ->]]; reflexivity. }
    rewrite Hl'. cbn [negb]. rewrite Hparse. cbn [mbind result_bind].
    rewrite Hneg, Hoff, Htz. reflexivity.
  - cbn [format_offset]. rewrite app_nil_r.
    rewrite find_sign_none by exact Hplain.
    rewrite read_format_time by exact Ht. reflexivity.
Qed.

Lemma check_date_fields_bounds (y m d : N) :
  check_date_fields y m d = true -> y < 10000 /\ m < 100 /\ d < 100.
Proof.
  unfold check_date_fields.
  intros [[[[[_ Hy]%andb_prop _]%andb_prop Hm]%andb_prop _]%andb_prop Hd]%andb_prop.
  apply N.leb_le in Hy, Hm, Hd.
  assert (days_in_month y m <= 31).
  { unfold days_in_month.
    repeat match goal with |- context [if ?b then _ else _] => destruct b end; lia. }
  lia.
Qed.

Lemma read_date_format (y m d : N) :
  check_date_fields y m d = true ->
  read_date (zfill 4 y ++ [HYPHEN] ++ zfill 2 m ++ [HYPHEN] ++ zfill 2 d)
  = Ok (y, m, d).
Proof.
  intros (Hy & Hm & Hd)%check_date_fields_bounds. unfold read_date.
  rewrite take_app_length' by (rewrite zfill_length; reflexivity).
  rewrite drop_app_length' by (rewrite zfill_length; reflexivity).
  rewrite read_int_zfill by (try discriminate; exact Hy).
  cbn [mbind result_bind app read_char]. rewrite N.eqb_refl. cbn [mbind result_bind].
  rewrite take_app_length' by (rewrite zfill_length; reflexivity).
  rewrite drop_app_length' by (rewrite zfill_length; reflexivity).
  rewrite read_int_zfill by (try discriminate; exact Hm).
  cbn [mbind result_bind app read_char]. rewrite N.eqb_refl. cbn [mbind result_bind].
  rewrite <- (app_nil_r (zfill 2 d)).
  rewrite take_app_length' by (rewrite zfill_length; reflexivity).
  rewrite read_int_zfill by (try discriminate; exact Hd). reflexivity.
Qed.

(** [read_isoformat] inverts [isoformat] on every well-formed value. *)
Lemma read_isoformat_isoformat (d : datetime) :
  valid_datetime d = true -> read_isoformat (isoformat d) = Ok d.
Proof.
  unfold valid_datetime. intros [[Hd Ht]%andb_prop Htz]%andb_prop.
  destruct d as [y m dd h mi s us tz]. cbn [year month day hour minute second
    microsecond tzinfo] in *.
  unfold read_isoformat, isoformat.
  cbn [year month day hour minute second microsecond tzinfo].
  set (date := zfill 4 y ++ [HYPHEN] ++ zfill 2 m ++ [HYPHEN] ++ zfill 2 dd).
  assert (Hdl : length date = 10%nat).
  { unfold date. rewrite !length_app, !zfill_length. reflexivity. }
  replace (zfill 4 y ++ [HYPHEN] ++ zfill 2 m ++ [HYPHEN] ++ zfill 2 dd ++ [LETTER_T]
           ++ format_time h mi s us ++ format_offset tz)
    with (date ++ [LETTER_T] ++ format_time h mi s us ++ format_offset tz)
    by (unfold date; rewrite <- !app_assoc; reflexivity).
  rewrite take_app_length' by (symmetry; exact Hdl).
  rewrite app_assoc.
  rewrite drop_app_length' by (rewrite length_app, Hdl; reflexivity).
  unfold date. rewrite read_date_format by exact Hd.
  cbn [mbind result_bind].
  destruct (format_time h mi s us ++ format_offset tz) eqn:E.
  - apply (f_equal length) in E. rewrite length_app in E.
    pose proof (format_time_length h mi s us). simpl in E. lia.
  - rewrite <- E.
    rewrite read_time_format;
      [|exact Ht | destruct tz; [exact Htz | exact I]].
    cbn [mbind result_bind]. unfold read_datetime. rewrite Hd, Ht. reflexivity.
Qed.

End IsoFormat.

(** *** [fromisoformat] on the texts [isoformat] writes *)

Section IsoParse.

Lemma parse_digits_snoc (k : nat) (p : list N) (var : N) :
  parse_digits p var (S k)
  = match parse_digits p var k with
    | Some (p', v) =>
        if is_digit (peek p') then Some (tail p', 10 * v + (peek p' - 48)) else None
    | None => None
    end.
Proof.
  revert p var. induction k as [|k IH]; intros p var; [reflexivity|].
  change (parse_digits p var (S (S k)))
    with (if is_digit (peek p)
          then parse_digits (tail p) (10 * var + (peek p - 48)) (S k) else None).
  rewrite IH. cbn [parse_digits]. destruct (is_digit (peek p)); reflexivity.
Qed.

Lemma is_digit_digit (d : N) : d < 10 -> is_digit (DIGIT0 + d) = true.
Proof.
  intros H. unfold is_digit, in_range, DIGIT0.
  apply andb_true_intro. split; apply N.leb_le; lia.
Qed.

(** The digits [zfill] writes are read back by [parse_digits]. *)
Lemma parse_digits_zfill (k : nat) (n var : N) (rest : list N) :
  n < 10 ^ N.of_nat k ->
  parse_digits (zfill k n ++ rest) var k = Some (rest, var * 10 ^ N.of_nat k + n).
Proof.
  revert n rest. induction k as [|k IH]; intros n rest Hn.
  - cbn in *. f_equal. f_equal. lia.
  - rewrite parse_digits_snoc. cbn [zfill]. rewrite <- app_assoc.
    assert (Hp : 10 ^ N.of_nat (S k) = 10 * 10 ^ N.of_nat k).
    { rewrite Nat2N.inj_succ, N.pow_succ_r'. reflexivity. }
    rewrite Hp in *.
    rewrite IH by (apply N.Div0.div_lt_upper_bound; lia).
    cbn [app peek tail].
    rewrite is_digit_digit by (apply N.mod_lt; lia).
    f_equal. f_equal.
    pose proof (N.div_mod n 10 ltac:(lia)) as E. unfold DIGIT0.
    generalize dependent (10 ^ N.of_nat k). intros P _ _ _.
    generalize dependent (n / 10). generalize (n mod 10). intros r q E. subst n.
    replace (48 + r - 48) with r by lia. ring.
Qed.

Lemma zfill_first (k : nat) (n : N) (rest : list N) :
  exists c t, zfill (S k) n ++ rest = c :: t /\ is_digit c = true.
Proof.
  revert n rest. induction k as [|k IH]; intros n rest.
  - exists (DIGIT0 + n mod 10), rest. split; [reflexivity|].
    apply is_digit_digit, N.mod_lt. lia.
  - change (zfill (S (S k)) n) with (zfill (S k) (n / 10) ++ [DIGIT0 + n mod 10]).
    rewrite <- app_assoc. apply IH.
Qed.

Lemma is_digit_bounds (c : N) : is_digit c = true -> 48 <= c <= 57.
Proof.
  unfold is_digit, in_range. intros [H1 H2]%andb_prop.
  apply N.leb_le in H1, H2. lia.
Qed.

Lemma peek_zfill_digit (k : nat) (n : N) (rest : list N) :
  is_digit (peek (zfill (S k) n ++ rest)) = true.
Proof. destruct (zfill_first k n rest) as (c & t & -> & Hc). exact Hc. Qed.

Lemma zfill_ascii (k : nat) (n : N) : Forall (fun c => 46 <= c <= 58) (zfill k n).
Proof.
  revert n. induction k as [|k IH]; intros n; cbn [zfill]; [constructor|].
  apply Forall_app. split; [apply IH|].
  constructor; [|constructor].
  pose proof (N.mod_lt n 10 ltac:(lia)) as H. unfold DIGIT0.
  revert H. generalize (n mod 10). intros r H. lia.
Qed.

Lemma format_time_ascii (h mi s us : N) :
  Forall (fun c => 46 <= c <= 58) (format_time h mi s us).
Proof.
  unfold format_time.
  destruct (us =? 0);
    repeat first [apply zfill_ascii | apply Forall_nil_2 | apply Forall_app_2
                 | apply Forall_cons_2];
    unfold COLON, DOT; lia.
Qed.

Lemma tz_scan_app (a b : list N) :
  Forall (fun c => 46 <= c <= 58) a -> tz_scan (a ++ b) = tz_scan b.
Proof.
  induction 1 as [|c a Hc _ IH]; [reflexivity|].
  cbn [app tz_scan]. rewrite IH.
  replace (is_tz_char c) with false; [reflexivity|].
  symmetry. unfold is_tz_char, LETTER_Z, PLUS, HYPHEN.
  rewrite !orb_false_iff, !N.eqb_neq. lia.
Qed.

(** ** The three shapes of a time or an offset *)

Lemma hms_after_colon (rest : list N) (stop : nat) :
  (stop < length rest)%nat ->
  hms_after true (COLON :: rest) stop = Next rest.
Proof.
  intros H. unfold hms_after. cbn [peek tail].
  replace (length rest <=? stop)%nat with false
    by (symmetry; apply Nat.leb_gt; exact H).
  reflexivity.
Qed.

Lemma hms_after_dot (rest : list N) (stop : nat) :
  (stop < length rest)%nat ->
  hms_after true (DOT :: rest) stop = Fraction rest.
Proof.
  intros H. unfold hms_after. cbn [peek tail].
  replace (length rest <=? stop)%nat with false
    by (symmetry; apply Nat.leb_gt; exact H).
  reflexivity.
Qed.

Lemma hms_after_end (sep : bool) (e : list N) :
  hms_after sep e (length e) = Stop (negb (peek e =? 0)).
Proof.
  unfold hms_after.
  replace (length (tail e) <=? length e)%nat with true; [reflexivity|].
  symmetry. apply Nat.leb_le. destruct e; simpl; lia.
Qed.

Lemma parse_fraction_zfill (us h mi s : N) (e : list N) :
  us < 1000000 -> is_digit (peek e) = false ->
  parse_fraction (zfill 6 us ++ e) (length e) h mi s
  = Some (negb (peek e =? 0), (h, mi, s, us)).
Proof.
  intros Hus He. unfold parse_fraction.
  rewrite length_app, zfill_length.
  rewrite Nat.add_sub.
  cbv zeta. change (6 <=? 6)%nat with true. change (6 <? 6)%nat with false.
  cbv iota.
  rewrite (parse_digits_zfill 6) by exact Hus.
  cbn [mbind option_bind]. cbv beta iota zeta.
  replace (skip_digits e) with e; [reflexivity|].
  destruct e as [|c e]; [reflexivity|]. cbn [peek] in He. cbn [skip_digits].
  rewrite He. reflexivity.
Qed.

Ltac field_tac :=
  unfold text, codepoint;
  repeat (progress (rewrite ?length_app, ?zfill_length; cbn [length app])); lia.

Ltac two_digits_tac H :=
  rewrite (parse_digits_zfill 2) by exact H;
  cbn [mbind option_bind]; cbv beta iota zeta.

(** [HH:MM] *)
Lemma parse_hh_mm (h mi : N) (e : list N) :
  h < 100 -> mi < 100 ->
  parse_hh_mm_ss_ff (zfill 2 h ++ [COLON] ++ zfill 2 mi ++ e) (length e)
  = Some (negb (peek e =? 0), (h, mi, 0, 0)).
Proof.
  intros Hh Hmi. unfold parse_hh_mm_ss_ff.
  two_digits_tac Hh.
  cbn [app peek]. rewrite N.eqb_refl.
  rewrite hms_after_colon by field_tac.
  two_digits_tac Hmi.
  rewrite hms_after_end. reflexivity.
Qed.

(** [HH:MM:SS] *)
Lemma parse_hh_mm_ss (h mi s : N) (e : list N) :
  h < 100 -> mi < 100 -> s < 100 ->
  parse_hh_mm_ss_ff (zfill 2 h ++ [COLON] ++ zfill 2 mi ++ [COLON] ++ zfill 2 s ++ e)
    (length e)
  = Some (negb (peek e =? 0), (h, mi, s, 0)).
Proof.
  intros Hh Hmi Hs. unfold parse_hh_mm_ss_ff.
  two_digits_tac Hh.
  cbn [app peek]. rewrite N.eqb_refl.
  rewrite hms_after_colon by field_tac.
  two_digits_tac Hmi.
  rewrite hms_after_colon by field_tac.
  two_digits_tac Hs.
  rewrite hms_after_end. reflexivity.
Qed.

(** [HH:MM:SS.ffffff] *)
Lemma parse_hh_mm_ss_ffffff (h mi s us : N) (e : list N) :
  h < 100 -> mi < 100 -> s < 100 -> us < 1000000 -> is_digit (peek e) = false ->
  parse_hh_mm_ss_ff
    (zfill 2 h ++ [COLON] ++ zfill 2 mi ++ [COLON] ++ zfill 2 s ++ [DOT] ++ zfill 6 us ++ e)
    (length e)
  = Some (negb (peek e =? 0), (h, mi, s, us)).
Proof.
  intros Hh Hmi Hs Hus He. unfold parse_hh_mm_ss_ff.
  two_digits_tac Hh.
  cbn [app peek]. rewrite N.eqb_refl.
  rewrite hms_after_colon by field_tac.
  two_digits_tac Hmi.
  rewrite hms_after_colon by field_tac.
  two_digits_tac Hs.
  rewrite hms_after_dot by field_tac.
  apply parse_fraction_zfill; assumption.
Qed.

Lemma parse_format_time_then (h mi s us : N) (e : list N) :
  check_time_fields h mi s us = true -> is_digit (peek e) = false ->
  parse_hh_mm_ss_ff (format_time h mi s us ++ e) (length e)
  = Some (negb (peek e =? 0), (h, mi, s, us)).
Proof.
  intros (Hh & Hmi & Hs & Hus)%check_time_fields_bounds He.
  unfold format_time. destruct (us =? 0) eqn:E.
  - apply N.eqb_eq in E. subst us. rewrite app_nil_r, <- !app_assoc.
    apply parse_hh_mm_ss; assumption.
  - rewrite <- !app_assoc. apply parse_hh_mm_ss_ffffff; assumption.
Qed.

(** ** The offset *)

(** The offset [isoformat] writes is a sign followed by hours, minutes
    and, when they are not zero, seconds and microseconds that add up
    to its magnitude. *)
Lemma format_offset_parse (o : Z) :
  check_offset o = true ->
  exists body hh mm sec usec,
    format_offset (Some o) = (if (o <? 0)%Z then HYPHEN else PLUS) :: body
    /\ parse_hh_mm_ss_ff body 0 = Some (false, (hh, mm, sec, usec))
    /\ usec < 1000000
    /\ Z.abs o
       = ((Z.of_N hh * 3600 + Z.of_N mm * 60 + Z.of_N sec) * SECOND_US + Z.of_N usec)%Z.
Proof.
  unfold check_offset, DAY_US. intros [Hlo Hhi]%andb_prop.
  apply Z.ltb_lt in Hlo, Hhi.
  unfold format_offset.
  change (Z.to_N HOUR_US) with 3600000000.
  change (Z.to_N MINUTE_US) with 60000000.
  change (Z.to_N SECOND_US) with 1000000.
  set (a := Z.to_N (Z.abs o)).
  assert (Ha : a < 86400000000) by (unfold a; lia).
  assert (Hao : Z.of_N a = Z.abs o) by (unfold a; lia).
  set (hh := a / 3600000000). set (r := a mod 3600000000).
  set (mm := r / 60000000). set (ss := r mod 60000000).
  set (sec := ss / 1000000). set (usec := ss mod 1000000).
  pose proof (N.div_mod a 3600000000 ltac:(lia)) as E1.
  pose proof (N.div_mod r 60000000 ltac:(lia)) as E2.
  pose proof (N.div_mod ss 1000000 ltac:(lia)) as E3.
  fold hh r in E1. fold mm ss in E2. fold sec usec in E3.
  assert (Hr : r < 3600000000) by (apply N.mod_lt; lia).
  assert (Hss : ss < 60000000) by (apply N.mod_lt; lia).
  assert (Hus : usec < 1000000) by (apply N.mod_lt; lia).
  assert (Hhh : hh < 100) by lia.
  assert (Hmm : mm < 100) by lia.
  assert (Hsec : sec < 100) by lia.
  cbv zeta. cbn [app]. eexists. exists hh, mm, sec, usec.
  split; [reflexivity|].
  split; [|split; [exact Hus | unfold SECOND_US; lia]].
  destruct (ss =? 0) eqn:Ess.
  - apply N.eqb_eq in Ess.
    assert (sec = 0 /\ usec = 0) as [-> ->] by lia.
    exact (parse_hh_mm hh mm [] Hhh Hmm).
  - destruct (usec =? 0) eqn:Eus.
    + apply N.eqb_eq in Eus. rewrite Eus.
      exact (parse_hh_mm_ss hh mm sec [] Hhh Hmm Hsec).
    + exact (parse_hh_mm_ss_ffffff hh mm sec usec [] Hhh Hmm Hsec Hus eq_refl).
Qed.

(** [fromisoformat] gives an offset of less than a second either way
    as UTC, and every other offset as it was written. *)
Lemma parse_isoformat_time_format (h mi s us : N) (tz : option Z) :
  check_time_fields h mi s us = true ->
  match tz with
  | None => True
  | Some o => check_offset o = true
  end ->
  exists parts,
    parse_isoformat_time (format_time h mi s us ++ format_offset tz)
    = Some (h, mi, s, us, parts)
    /\ tzinfo_from_isoformat_results parts = Ok (offset_read_back <$> tz).
Proof.
  intros Ht Htz. unfold parse_isoformat_time.
  rewrite tz_scan_app by apply format_time_ascii.
  destruct tz as [o|].
  - destruct (format_offset_parse o Htz) as (body & hh & mm & sec & usec & -> & Hp & Hus & Ho).
    set (sign := if (o <? 0)%Z then HYPHEN else PLUS).
    assert (Hsign : tz_scan (sign :: body) = sign :: body).
    { unfold sign. destruct (o <? 0)%Z; reflexivity. }
    rewrite Hsign.
    rewrite parse_format_time_then;
      [|exact Ht | unfold sign; destruct (o <? 0)%Z; reflexivity].
    replace (sign =? LETTER_Z) with false
      by (unfold sign; destruct (o <? 0)%Z; reflexivity).
    rewrite Hp. cbv beta iota zeta.
    eexists. split; [reflexivity|].
    unfold tzinfo_from_isoformat_results, offset_read_back.
    cbn [fmap option_fmap option_map].
    assert (Hs : (sign =? HYPHEN) = (o <? 0)%Z)
      by (unfold sign; destruct (o <? 0)%Z; reflexivity).
    rewrite Hs. unfold check_offset, DAY_US in Htz. unfold SECOND_US in *.
    apply andb_prop in Htz as [Hlo Hhi]. apply Z.ltb_lt in Hlo, Hhi.
    destruct (o <? 0)%Z eqn:Eo; [apply Z.ltb_lt in Eo | apply Z.ltb_ge in Eo].
    + destruct (Z.abs o <? 1000000)%Z eqn:Ea;
        [apply Z.ltb_lt in Ea | apply Z.ltb_ge in Ea].
      * replace (_ =? 0)%Z with true by (symmetry; apply Z.eqb_eq; lia).
        reflexivity.
      * replace (_ =? 0)%Z with false by (symmetry; apply Z.eqb_neq; lia).
        replace (_ + _)%Z with o by lia.
        unfold check_offset, DAY_US.
        replace (_ && _) with true; [reflexivity|].
        symmetry. apply andb_true_intro. split; apply Z.ltb_lt; lia.
    + destruct (Z.abs o <? 1000000)%Z eqn:Ea;
        [apply Z.ltb_lt in Ea | apply Z.ltb_ge in Ea].
      * replace (_ =? 0)%Z with true by (symmetry; apply Z.eqb_eq; lia).
        reflexivity.
      * replace (_ =? 0)%Z with false by (symmetry; apply Z.eqb_neq; lia).
        replace (_ + _)%Z with o by lia.
        unfold check_offset, DAY_US.
        replace (_ && _) with true; [reflexivity|].
        symmetry. apply andb_true_intro. split; apply Z.ltb_lt; lia.
  - cbn [format_offset tz_scan]. change (length []) with (length (@nil N)).
    rewrite parse_format_time_then by (exact Ht || reflexivity).
    cbn. eexists. split; reflexivity.
Qed.

(** ** The date and the whole text *)

Lemma parse_isoformat_date_format (y m d : N) (rest : list N) :
  y < 10000 -> m < 100 -> d < 100 ->
  parse_isoformat_date
    (zfill 4 y ++ [HYPHEN] ++ zfill 2 m ++ [HYPHEN] ++ zfill 2 d ++ rest) 10
  = Some (Z.of_N y, Z.of_N m, Z.of_N d).
Proof.
  intros Hy Hm Hd. unfold parse_isoformat_date.
  rewrite (parse_digits_zfill 4) by exact Hy.
  cbn [mbind option_bind]. cbv beta iota zeta.
  cbn [app peek tail]. rewrite N.eqb_refl. cbv iota.
  replace (peek (zfill 2 m ++ HYPHEN :: zfill 2 d ++ rest) =? LETTER_W) with false.
  2:{ symmetry. apply N.eqb_neq.
      pose proof (is_digit_bounds _ (peek_zfill_digit 1 m (HYPHEN :: zfill 2 d ++ rest))).
      unfold LETTER_W. lia. }
  two_digits_tac Hm.
  cbn [peek tail andb negb]. rewrite N.eqb_refl. cbn [negb].
  two_digits_tac Hd.
  repeat f_equal; lia.
Qed.

Lemma c_is_leap_is_leap (y : N) : c_is_leap (Z.of_N y) = is_leap y.
Proof.
  unfold c_is_leap, is_leap.
  rewrite !Z.rem_mod_nonneg by lia.
  change 4%Z with (Z.of_N 4). change 100%Z with (Z.of_N 100).
  change 400%Z with (Z.of_N 400). change 0%Z with (Z.of_N 0).
  rewrite <- !N2Z.inj_mod.
  assert (E : forall a b, (Z.of_N a =? Z.of_N b)%Z = (a =? b)).
  { intros a b. destruct (a =? b) eqn:Eab.
    - apply N.eqb_eq in Eab. apply Z.eqb_eq. lia.
    - apply N.eqb_neq in Eab. apply Z.eqb_neq. lia. }
  rewrite !E. reflexivity.
Qed.

Lemma c_days_in_month_days_in_month (y m : N) :
  1 <= m <= 12 -> c_days_in_month (Z.of_N y) (Z.of_N m) = Z.of_N (days_in_month y m).
Proof.
  intros Hm. unfold c_days_in_month, days_in_month.
  rewrite c_is_leap_is_leap.
  assert (m = 1 \/ m = 2 \/ m = 3 \/ m = 4 \/ m = 5 \/ m = 6 \/ m = 7 \/ m = 8
          \/ m = 9 \/ m = 10 \/ m = 11 \/ m = 12) as H by lia.
  repeat (destruct H as [-> | H]); try subst m;
    cbn; destruct (is_leap y); reflexivity.
Qed.

Lemma new_datetime_valid (y m d h mi s us : N) (tz : option Z) :
  check_date_fields y m d = true -> check_time_fields h mi s us = true ->
  new_datetime (Z.of_N y) (Z.of_N m) (Z.of_N d) h mi s us tz
  = Ok (mk_datetime y m d h mi s us tz).
Proof.
  unfold check_date_fields, check_time_fields.
  rewrite !andb_true_iff, !N.leb_le.
  intros (((((Hy1 & Hy2) & Hm1) & Hm2) & Hd1) & Hd2) (((Hh & Hmi) & Hs) & Hus).
  unfold new_datetime.
  rewrite c_days_in_month_days_in_month by lia.
  replace ((Z.of_N y <? 1) || (9999 <? Z.of_N y))%Z with false
    by (symmetry; apply orb_false_intro; apply Z.ltb_ge; lia).
  replace ((Z.of_N m <? 1) || (12 <? Z.of_N m))%Z with false
    by (symmetry; apply orb_false_intro; apply Z.ltb_ge; lia).
  replace ((Z.of_N d <? 1) || (Z.of_N (days_in_month y m) <? Z.of_N d))%Z with false
    by (symmetry; apply orb_false_intro; apply Z.ltb_ge; lia).
  replace (23 <? h) with false by (symmetry; apply N.ltb_ge; lia).
  replace (59 <? mi) with false by (symmetry; apply N.ltb_ge; lia).
  replace (59 <? s) with false by (symmetry; apply N.ltb_ge; lia).
  rewrite !N2Z.id. reflexivity.
Qed.

Lemma utf8_ascii (s : text) : Forall (fun c => c < 128) s -> utf8 s = Some s.
Proof.
  intros H. unfold utf8.
  replace (existsb surrogate s) with false.
  - f_equal. induction H as [|c s Hc _ IH]; [reflexivity|].
    cbn [map concat]. rewrite IH. unfold utf8_char.
    apply N.ltb_lt in Hc. rewrite Hc. reflexivity.
  - symmetry. induction H as [|c s Hc _ IH]; [reflexivity|].
    cbn [existsb]. rewrite IH. unfold surrogate, in_range.
    replace (55296 <=? c) with false by (symmetry; apply N.leb_gt; lia).
    reflexivity.
Qed.

Lemma sanitize_ascii (s : text) :
  Forall (fun c => c < 128) s -> (7 <= length s)%nat ->
  sanitize_isoformat_str s = Some s.
Proof.
  intros H Hl. unfold sanitize_isoformat_str.
  replace (length s <? 7)%nat with false by (symmetry; apply Nat.ltb_ge; exact Hl).
  assert (E : forall pos, match s !! pos with
                          | Some c => surrogate c
                          | None => false
                          end = false).
  { intros pos. destruct (s !! pos) as [c|] eqn:Ec; [|reflexivity].
    rewrite Forall_lookup in H. specialize (H _ _ Ec). cbv beta in H.
    unfold surrogate, in_range.
    replace (55296 <=? c) with false by (symmetry; apply N.leb_gt; lia).
    reflexivity. }
  rewrite !E. reflexivity.
Qed.

Lemma isoformat_ascii (d : datetime) : Forall (fun c => c < 128) (isoformat d).
Proof.
  assert (Hz : forall k n, Forall (fun c => c < 128) (zfill k n)).
  { intros k n. eapply Forall_impl; [apply zfill_ascii|]. cbv beta. intros c Hc. lia. }
  unfold isoformat, format_time, format_offset.
  destruct (microsecond d =? 0), (tzinfo d) as [o|]; cbv zeta;
    repeat match goal with |- context [if ?b then _ else _] => destruct b end;
    repeat first [apply Hz | apply Forall_nil_2 | apply Forall_app_2
                 | apply Forall_cons_2];
    unfold HYPHEN, PLUS, COLON, DOT, LETTER_T; lia.
Qed.

(** Reading the text [isoformat] wrote gives the value back, its offset
    replaced by UTC when it is less than a second either way. *)
Lemma fromisoformat_isoformat (d : datetime) :
  valid_datetime d = true -> fromisoformat (isoformat d) = Ok (read_back d).
Proof.
  intros Hv. pose proof Hv as Hv'. unfold valid_datetime in Hv'.
  apply andb_prop in Hv' as [[Hd Ht]%andb_prop Htz].
  pose proof (check_date_fields_bounds _ _ _ Hd) as (Hy & Hm & Hdd).
  unfold fromisoformat.
  assert (Hlen : (19 <= @length N (isoformat d))%nat).
  { unfold isoformat. pose proof (format_time_length (hour d) (minute d) (second d)
                                    (microsecond d)).
    unfold text, codepoint in *.
    rewrite !length_app, !zfill_length. cbn [length]. lia. }
  rewrite sanitize_ascii by (apply isoformat_ascii || (unfold text, codepoint; lia)).
  rewrite utf8_ascii by apply isoformat_ascii.
  cbv zeta.
  assert (Hsep : find_isoformat_datetime_separator (isoformat d) (@length N (isoformat d))
                 = Some 10%nat).
  { unfold find_isoformat_datetime_separator.
    replace (@length N (isoformat d) =? 7)%nat with false
      by (symmetry; apply Nat.eqb_neq; lia).
    unfold at_, isoformat.
    rewrite (drop_app_length' (zfill 4 (year d))) by (rewrite zfill_length; reflexivity).
    cbn [app peek]. rewrite N.eqb_refl.
    change 5%nat with (4 + 1)%nat. rewrite <- drop_drop.
    rewrite (drop_app_length' (zfill 4 (year d))) by (rewrite zfill_length; reflexivity).
    cbn [app skipn]. rewrite drop_0.
    replace (peek _ =? LETTER_W) with false; [reflexivity|].
    symmetry. apply N.eqb_neq.
    pose proof (is_digit_bounds _ (peek_zfill_digit 1 (month d)
      (HYPHEN :: zfill 2 (day d) ++ LETTER_T
         :: format_time (hour d) (minute d) (second d) (microsecond d)
            ++ format_offset (tzinfo d)))).
    unfold LETTER_W. lia. }
  rewrite Hsep.
  replace (10 <? @length N (isoformat d))%nat with true
    by (symmetry; apply Nat.ltb_lt; lia).
  rewrite (parse_isoformat_date_format (year d) (month d) (day d) _ Hy Hm Hdd
           : parse_isoformat_date (isoformat d) 10 = _).
  assert (Hdrop : @drop N 10 (isoformat d)
                  = LETTER_T :: format_time (hour d) (minute d) (second d) (microsecond d)
                    ++ format_offset (tzinfo d)).
  { unfold isoformat.
    rewrite !(app_assoc _ _ ([LETTER_T] ++ _)).
    rewrite !(app_assoc _ _ (zfill 2 (day d))).
    apply drop_app_length'. unfold text, codepoint.
    rewrite !length_app, !zfill_length. reflexivity. }
  rewrite Hdrop. cbn [peek]. change (sep_width LETTER_T) with 1%nat. cbn [skipn]. rewrite drop_0.
  destruct (parse_isoformat_time_format _ _ _ _ (tzinfo d) Ht) as (parts & -> & Hparts).
  { destruct (tzinfo d); [exact Htz | exact I]. }
  rewrite Hparts. cbn [mbind result_bind].
  rewrite new_datetime_valid by assumption.
  destruct d; reflexivity.
Qed.

End IsoParse.

(** C9 (counterexample): a value whose clock is half a second ahead of
    UTC is serialised with the offset [+00:00:00.500000], and parsing
    that text gives the same wall-clock time in UTC, half a second away
    from the original. *)
Lemma C9_sub_second_offset_read_as_utc : ~ updated_at_round_trip_as_stated.
Proof.
  intros H. specialize (H half_second_ahead eq_refl).
  vm_compute in H. discriminate H.
Qed.

(** C9 (amended): serialising a well-formed [datetime] and parsing the
    text again gives the original value truncated to whole seconds,
    carrying the offset of UTC when the original was naive or when its
    offset was less than one second either way, and its own UTC offset
    otherwise. *)
Theorem C9_updated_at_round_trip (d : datetime) :
  valid_datetime d = true ->
  FlowBase.validate_dt (FlowBase.serialize_datetime (VDatetime d))
  = Ok (VDatetime
          (mk_datetime (year d) (month d) (day d) (hour d) (minute d) (second d) 0
                       (Some (offset_read_back (default timezone_utc (tzinfo d)))))).
Proof.
  intros Hv. unfold FlowBase.serialize_datetime, FlowBase.validate_dt.
  rewrite fromisoformat_isoformat.
  - destruct d as [y m dd h mi s us [o|]]; reflexivity.
  - destruct d as [y m dd h mi s us [o|]];
      unfold valid_datetime, check_time_fields in *; cbn in *;
      rewrite !andb_true_iff in *; tauto.
Qed.

Lemma C9_updated_at_round_trip_witness :
  FlowBase.validate_dt
    (FlowBase.serialize_datetime
       (VDatetime (mk_datetime 2024 5 29 17 57 17 631346 None)))
  = Ok (VDatetime (mk_datetime 2024 5 29 17 57 17 0 (Some timezone_utc)))
  /\ FlowBase.validate_dt
       (FlowBase.serialize_datetime
          (VDatetime (mk_datetime 2024 5 29 17 57 17 631346 (Some (-18000000000)%Z))))
     = Ok (VDatetime (mk_datetime 2024 5 29 17 57 17 0 (Some (-18000000000)%Z)))
  /\ FlowBase.validate_dt (FlowBase.serialize_datetime (VDatetime half_second_ahead))
     = Ok (VDatetime (mk_datetime 2024 5 29 17 57 17 0 (Some timezone_utc))).
Proof.
  split; [|split].
  - apply (C9_updated_at_round_trip (mk_datetime 2024 5 29 17 57 17 631346 None)).
    vm_compute. reflexivity.
  - apply (C9_updated_at_round_trip
             (mk_datetime 2024 5 29 17 57 17 631346 (Some (-18000000000)%Z))).
    vm_compute. reflexivity.
  - apply (C9_updated_at_round_trip half_second_ahead).
    vm_compute. reflexivity.
Defined.

(** * Properties of the variable service *)

Section ServiceProperties.

Variable encrypt_api_key : text -> result text.
Variable decrypt_api_key : text -> result text.
Variable CREDENTIAL_TYPE : text.
Variable settings : Settings.
Variable environ : gmap text text.
Variable uuid4 : nat -> UUID.

Local Abbreviation create_variable := (DatabaseVariableService.create_variable encrypt_api_key uuid4).
Local Abbreviation get_variable :=
  (DatabaseVariableService.get_variable decrypt_api_key CREDENTIAL_TYPE).
Local Abbreviation update_variable := (DatabaseVariableService.update_variable encrypt_api_key).
Local Abbreviation update_variable_fields :=
  (DatabaseVariableService.update_variable_fields encrypt_api_key).
Local Abbreviation initialize_loop :=
  (DatabaseVariableService.initialize_loop encrypt_api_key CREDENTIAL_TYPE environ uuid4).
Local Abbreviation initialize_user_variables :=
  (DatabaseVariableService.initialize_user_variables
     encrypt_api_key CREDENTIAL_TYPE settings environ uuid4).
Local Abbreviation encrypted_at_rest := (DatabaseVariableService.encrypted_at_rest encrypt_api_key).

Lemma first_Some (p : VariableRow -> bool) (rows : list VariableRow) i v :
  first p rows = Some (i, v) -> rows !! i = Some v /\ p v = true.
Proof.
  revert i. induction rows as [|x rows IH]; intros i; cbn [first]; [discriminate|].
  destruct (p x) eqn:Hx.
  - intros [= <- <-]. auto.
  - destruct (first p rows) as [[j y]|]; cbn; [|discriminate].
    intros [= <- <-]. apply IH. reflexivity.
Qed.

Lemma first_None (p : VariableRow -> bool) (rows : list VariableRow) :
  first p rows = None <-> Forall (fun v => p v = false) rows.
Proof.
  induction rows as [|x rows IH]; cbn [first].
  - split; [constructor | reflexivity].
  - destruct (p x) eqn:Hx.
    + split; [discriminate|]. intros H. inversion H; congruence.
    + destruct (first p rows) as [[j y]|]; cbn.
      * split; [discriminate|]. intros H. inversion H; subst.
        apply IH in H3. discriminate.
      * split; [|reflexivity]. intros _. constructor; [exact Hx | apply IH; reflexivity].
Qed.

Lemma first_app_new (p : VariableRow -> bool) (rows : list VariableRow) v :
  first p rows = None -> p v = true ->
  first p (rows ++ [v]) = Some (length rows, v).
Proof.
  intros Hnone Hv. induction rows as [|x rows IH]; cbn [first app length].
  - rewrite Hv. reflexivity.
  - cbn [first] in Hnone. destruct (p x); [discriminate|].
    destruct (first p rows) as [[j y]|]; [discriminate|].
    rewrite IH by reflexivity. reflexivity.
Qed.

(** *** The operations that keep values encrypted *)

Lemma create_variable_encrypted user_id name value fields _type w w' r :
  encrypted_at_rest (db w) ->
  create_variable user_id name value fields _type w = (w', r) ->
  encrypted_at_rest (db w').
Proof.
  unfold DatabaseVariableService.create_variable, DatabaseVariableService.encrypted_at_rest.
  intros Hinv. destruct (encrypt_api_key value) as [c|e] eqn:E; intros [= <- <-].
  - cbn [db]. apply Forall_app. split; [exact Hinv|].
    constructor; [|constructor]. exists value. exact E.
  - exact Hinv.
Qed.

Lemma update_variable_encrypted user_id name value w w' r :
  encrypted_at_rest (db w) ->
  update_variable user_id name value w = (w', r) ->
  encrypted_at_rest (db w').
Proof.
  unfold DatabaseVariableService.update_variable, DatabaseVariableService.encrypted_at_rest.
  intros Hinv. destruct (first _ (db w)) as [[i v]|]; [|intros [= <- <-]; exact Hinv].
  destruct (encrypt_api_key value) as [c|e] eqn:E; intros [= <- <-]; [|exact Hinv].
  cbn [db with_db]. apply Forall_insert; [exact Hinv|].
  exists value. exact E.
Qed.

Lemma initialize_loop_encrypted user_id vars w w' r :
  encrypted_at_rest (db w) ->
  initialize_loop user_id vars w = (w', r) ->
  encrypted_at_rest (db w').
Proof.
  revert w. induction vars as [|var vars IH]; intros w Hinv;
    cbn [DatabaseVariableService.initialize_loop].
  - intros [= <- <-]. exact Hinv.
  - destruct (environ !! var) as [raw|]; [|apply IH, Hinv].
    cbn [db emit].
    destruct (first _ (db w)) as [[i found]|].
    + destruct (encrypt_api_key (strip raw)) as [c|e] eqn:E.
      * apply IH. cbn [db with_db emit].
        apply Forall_insert; [exact Hinv|]. exists (strip raw). exact E.
      * intros [= <- <-]. exact Hinv.
    + destruct (create_variable _ _ _ _ _ _) as [w1 [row|e]] eqn:Ec.
      * apply IH. eapply create_variable_encrypted; [|exact Ec]. exact Hinv.
      * apply IH. cbn [db emit].
        eapply create_variable_encrypted; [|exact Ec]. exact Hinv.
Qed.

Lemma initialize_user_variables_encrypted user_id w w' r :
  encrypted_at_rest (db w) ->
  initialize_user_variables user_id w = (w', r) ->
  encrypted_at_rest (db w').
Proof.
  unfold DatabaseVariableService.initialize_user_variables. intros Hinv.
  destruct (store_environment_variables settings).
  - apply initialize_loop_encrypted. exact Hinv.
  - intros [= <- <-]. exact Hinv.
Qed.


(** *** [update_variable] *)

Lemma update_variable_not_found user_id name value w :
  first (by_user_name user_id name) (db w) = None ->
  update_variable user_id name value w = (w, Raise (ValueError (msg_not_found name))).
Proof.
  intros H. unfold DatabaseVariableService.update_variable. rewrite H. reflexivity.
Qed.

(** The matched row gets the new ciphertext; its [updated_at], like the
    rest of the row, is left as it was. *)
Lemma update_variable_found user_id name value w i v c :
  first (by_user_name user_id name) (db w) = Some (i, v) ->
  encrypt_api_key value = Ok c ->
  exists v',
    update_variable user_id name value w = (with_db (<[i := v']> (db w)) w, Ok v')
    /\ var_value v' = c
    /\ var_updated_at v' = var_updated_at v
    /\ db (with_db (<[i := v']> (db w)) w) !! i = Some v'.
Proof.
  intros Hf He. exists (set_value c v).
  unfold DatabaseVariableService.update_variable. rewrite Hf, He.
  repeat split. cbn [db with_db].
  apply list_lookup_insert_eq. apply first_Some in Hf as [Hf _].
  eapply lookup_lt_Some, Hf.
Qed.

(** *** [update_variable_fields] *)

Lemma one_Ok p rows i v : one p rows = Ok (i, v) -> rows !! i = Some v /\ p v = true.
Proof.
  unfold one. destruct (List.filter p rows) as [|x [|y l]]; try discriminate.
  destruct (first p rows) as [[j z]|] eqn:Hf; [|discriminate].
  intros [= <- <-]. eapply first_Some, Hf.
Qed.

(** When the patch carries a value, the committed row holds that value
    as it came, and the ciphertext is left on the patch object. *)
Lemma update_variable_fields_value user_id variable_id patch now w i v plaintext c :
  one (by_id_user variable_id user_id) (db w) = Ok (i, v) ->
  upd_value patch = Some plaintext ->
  encrypt_api_key plaintext = Ok c ->
  exists w' row patch',
    update_variable_fields user_id variable_id patch now w = (w', Ok (row, patch'))
    /\ db w' !! i = Some row
    /\ var_value row = plaintext
    /\ var_updated_at row = Some now
    /\ upd_value patch' = Some c.
Proof.
  intros Ho Hp He.
  unfold DatabaseVariableService.update_variable_fields. rewrite Ho.
  cbn [var_value set_updated_at apply_patch]. rewrite Hp. cbn [from_option id].
  rewrite He.
  eexists _, _, _. split; [reflexivity|].
  split; [|repeat split].
  - cbn [db with_db].
    apply list_lookup_insert_eq. apply one_Ok in Ho as [Ho _].
    eapply lookup_lt_Some, Ho.
  - cbn [var_value set_updated_at apply_patch]. rewrite Hp. reflexivity.
Qed.


(** *** [get_variable] *)

Lemma truthy_false (s : text) : truthy s = false <-> s = [].
Proof. destruct s; split; intros H; try reflexivity; discriminate. Qed.

(** C6 (amended): [get_variable] raises the not-found error exactly when
    no row matches (user, name) or the matched row's stored value is
    empty; it raises the credential error exactly when a row matches,
    its stored value is not empty, its type is the credential type and
    the field is [session_id]; in every other case it returns what
    decrypting the stored value gives.  (Decryption is taken not to
    raise these two errors itself.) *)
Theorem C6_get_variable_outcomes (user_id : UUID) (name field : text) (w : World) :
  (forall c e, decrypt_api_key c = Raise e ->
     e <> ValueError (msg_not_found name) /\ e <> TypeError (msg_credential name)) ->
  let r := get_variable user_id name field w in
  let found := first (by_user_name user_id name) (db w) in
  (r = Raise (ValueError (msg_not_found name))
   <-> (found = None \/ exists i v, found = Some (i, v) /\ var_value v = []))
  /\ (r = Raise (TypeError (msg_credential name))
      <-> exists i v, found = Some (i, v) /\ var_value v <> []
                      /\ var_type v = CREDENTIAL_TYPE /\ field = txt "session_id")
  /\ (forall i v, found = Some (i, v) -> var_value v <> [] ->
        ~ (var_type v = CREDENTIAL_TYPE /\ field = txt "session_id") ->
        r = decrypt_api_key (var_value v)).
Proof.
  intros Hdec. cbv zeta. unfold DatabaseVariableService.get_variable.
  destruct (first (by_user_name user_id name) (db w)) as [[i v]|].
  2:{ split; [split; auto|]. split.
      - split; [discriminate | intros (? & ? & [=] & _)].
      - intros ? ? [=]. }
  destruct (truthy (var_value v)) eqn:Ht; cbn [negb].
  2:{ apply truthy_false in Ht. split; [split; eauto|]. split.
      - split; [discriminate|]. intros (? & ? & [= <- <-] & Hne & _). contradiction.
      - intros ? ? [= <- <-] Hne. contradiction. }
  assert (Hne : var_value v <> []).
  { intros E. apply truthy_false in E. congruence. }
  destruct (bool_decide (var_type v = CREDENTIAL_TYPE)
            && bool_decide (field = txt "session_id")) eqn:Hb.
  - apply andb_prop in Hb as [Hty%bool_decide_eq_true Hf%bool_decide_eq_true].
    split; [|split].
    + split; [discriminate|].
      intros [[=] | (? & ? & [= <- <-] & E)]. contradiction.
    + split; [eauto 10 | reflexivity].
    + intros ? ? [= <- <-] _ Hn. exfalso. apply Hn. auto.
  - assert (Hn : ~ (var_type v = CREDENTIAL_TYPE /\ field = txt "session_id")).
    { intros [Hty Hf].
      rewrite (bool_decide_eq_true_2 _ Hty), (bool_decide_eq_true_2 _ Hf) in Hb.
      discriminate. }
    split; [|split].
    + split.
      * intros E. destruct (Hdec _ _ E) as [Habs _]. contradiction.
      * intros [[=] | (? & ? & [= <- <-] & E)]. contradiction.
    + split.
      * intros E. destruct (Hdec _ _ E) as [_ Habs]. contradiction.
      * intros (? & ? & [= <- <-] & _ & Hty & Hf). exfalso. apply Hn. auto.
    + intros ? ? [= <- <-] _ _. reflexivity.
Qed.

(** *** [create_variable] followed by [get_variable] *)

Lemma by_user_name_refl user_id name v :
  var_user_id v = user_id -> var_name v = name -> by_user_name user_id name v = true.
Proof.
  intros <- <-. unfold by_user_name. rewrite N.eqb_refl.
  apply andb_true_iff. split; [reflexivity | apply bool_decide_eq_true; reflexivity].
Qed.

(** C5 (amended): in a table that holds no Variable for (user, name),
    when the encryption of the plaintext is not empty, is not the
    plaintext itself and decrypts to the plaintext, [create_variable]
    followed by [get_variable] with a field other than [session_id]
    returns the plaintext, and the row that was stored does not hold the
    plaintext. *)
Theorem C5_create_then_get (user_id : UUID) (name plaintext : text)
    (fields : list text) (_type field : text) (w : World) (c : text) :
  first (by_user_name user_id name) (db w) = None ->
  encrypt_api_key plaintext = Ok c ->
  decrypt_api_key c = Ok plaintext ->
  c <> plaintext ->
  c <> [] ->
  field <> txt "session_id" ->
  exists w' row,
    create_variable user_id name plaintext fields _type w = (w', Ok row)
    /\ db w' = db w ++ [row]
    /\ get_variable user_id name field w' = Ok plaintext
    /\ var_value row <> plaintext.
Proof.
  intros Hfresh He Hd Hneq Hne Hfield.
  unfold DatabaseVariableService.create_variable. rewrite He.
  eexists _, _. split; [reflexivity|]. split; [reflexivity|].
  split; [|exact Hneq].
  unfold DatabaseVariableService.get_variable. cbn [db].
  rewrite (first_app_new _ _ _ Hfresh) by (apply by_user_name_refl; reflexivity).
  cbn [var_value var_type].
  destruct c as [|x c]; [contradiction|]. cbn [truthy negb].
  replace (bool_decide (field = txt "session_id")) with false
    by (symmetry; apply bool_decide_eq_false; exact Hfield).
  rewrite andb_false_r. exact Hd.
Qed.

End ServiceProperties.

(** ** Worked cases on the sample table *)

Lemma sample_decrypt_errors (name : text) (c : text) (e : exn) :
  sample_decrypt c = Raise e ->
  e <> ValueError (msg_not_found name) /\ e <> TypeError (msg_credential name).
Proof.
  unfold sample_decrypt. destruct (strip_prefix MARKER c); [discriminate|].
  intros [= <-]. split; discriminate.
Qed.

Lemma C6_get_variable_outcomes_witness :
  DatabaseVariableService.get_variable sample_decrypt CREDENTIAL
    1 (txt "OPENAI_API_KEY") (txt "session_id") sample_world
  = Raise (TypeError (msg_credential (txt "OPENAI_API_KEY")))
  /\ DatabaseVariableService.get_variable sample_decrypt CREDENTIAL
       1 (txt "OPENAI_API_KEY") (txt "other") sample_world
     = sample_decrypt (var_value sample_row).
Proof.
  split.
  - destruct (C6_get_variable_outcomes sample_decrypt CREDENTIAL 1
                (txt "OPENAI_API_KEY") (txt "session_id") sample_world
                (sample_decrypt_errors _)) as (_ & [_ Hty] & _).
    apply Hty. exists O, sample_row. repeat split. discriminate.
  - destruct (C6_get_variable_outcomes sample_decrypt CREDENTIAL 1
                (txt "OPENAI_API_KEY") (txt "other") sample_world
                (sample_decrypt_errors _)) as (_ & _ & Hother).
    apply (Hother O sample_row).
    + reflexivity.
    + discriminate.
    + intros [_ H]. vm_compute in H. discriminate H.
Defined.

(** C6 (counterexample): a credential row whose stored value is empty,
    asked for the [session_id] field, gives the not-found error and not
    the credential error: the emptiness test comes first. *)
Lemma C6_empty_credential_not_found : ~ get_variable_rule_as_stated.
Proof.
  intros H.
  destruct (H (fun c => Ok c) CREDENTIAL (mk_world [blank_credential] 0 [])
              1 (txt "OPENAI_API_KEY") (txt "session_id")
              ltac:(intros c; exists c; reflexivity)) as (_ & [_ Hty] & _).
  assert (Hr : DatabaseVariableService.get_variable (fun c => Ok c) CREDENTIAL
                 1 (txt "OPENAI_API_KEY") (txt "session_id")
                 (mk_world [blank_credential] 0 [])
               = Raise (TypeError (msg_credential (txt "OPENAI_API_KEY")))).
  { apply Hty. exists O, blank_credential. repeat split. }
  vm_compute in Hr. discriminate Hr.
Qed.

Lemma C5_create_then_get_witness :
  exists w' row,
    DatabaseVariableService.create_variable sample_encrypt N.of_nat
      1 (txt "MY_KEY") (txt "secret123") [] GENERIC empty_world = (w', Ok row)
    /\ db w' = db empty_world ++ [row]
    /\ DatabaseVariableService.get_variable sample_decrypt CREDENTIAL
         1 (txt "MY_KEY") (txt "other") w' = Ok (txt "secret123")
    /\ var_value row <> txt "secret123".
Proof.
  apply (C5_create_then_get sample_encrypt sample_decrypt CREDENTIAL N.of_nat
           1 (txt "MY_KEY") (txt "secret123") [] GENERIC (txt "other") empty_world
           (MARKER ++ txt "secret123"));
    try reflexivity; intros H; vm_compute in H; discriminate H.
Defined.

Lemma blanking_inverts (p : text) :
  exists c, blanking_encrypt p = Ok c /\ blanking_decrypt c = Ok p.
Proof.
  eexists. split; [reflexivity|].
  case_bool_decide; subst; reflexivity.
Qed.

Lemma blanking_changes (p : text) : blanking_encrypt p <> Ok p.
Proof.
  unfold blanking_encrypt. intros [= H].
  case_bool_decide; subst; [discriminate|].
  apply (f_equal length) in H. simpl in H. lia.
Qed.

(** C5 (counterexample): with a cipher that inverts and never returns
    its input but encrypts ["a"] to the empty text, the Variable created
    in an empty table is reported as not found when read back. *)
Lemma C5_empty_ciphertext_not_found : ~ round_trip_as_stated.
Proof.
  intros H.
  destruct (H blanking_encrypt blanking_decrypt CREDENTIAL N.of_nat empty_world
              1 (txt "MY_KEY") (txt "a") [] GENERIC (txt "other")
              blanking_inverts blanking_changes ltac:(discriminate))
    as (w' & row & Hc & Hg & _).
  vm_compute in Hc. injection Hc as <- <-.
  vm_compute in Hg. discriminate Hg.
Qed.

(** A Variable created under a name the user already has is shadowed by
    the older row: reading the name back gives the older plaintext. *)
Lemma create_then_get_shadowed :
  exists w' row,
    DatabaseVariableService.create_variable sample_encrypt N.of_nat
      1 (txt "OPENAI_API_KEY") (txt "new") [] GENERIC sample_world = (w', Ok row)
    /\ DatabaseVariableService.get_variable sample_decrypt CREDENTIAL
         1 (txt "OPENAI_API_KEY") (txt "other") w' = Ok (txt "old").
Proof. eexists _, _. split; vm_compute; reflexivity. Qed.

Lemma sample_encrypt_marked (p c : text) :
  sample_encrypt p = Ok c -> take 6 c = MARKER.
Proof.
  unfold sample_encrypt. destruct (existsb is_surrogate p); [discriminate|].
  intros [= <-]. reflexivity.
Qed.

(** C1 (the code departs from the claim): patching the [value] field of
    a row through [update_variable_fields] commits the row with the
    plaintext ["secret123"] as its value, which is no output of the
    cipher; the ciphertext that was computed is left on the patch
    object.  The table satisfied the invariant before the call and does
    not satisfy it after. *)
Theorem C1_update_variable_fields_stores_plaintext :
  exists w' row patch',
    DatabaseVariableService.update_variable_fields sample_encrypt
      1 7 secret_patch midsummer sample_world = (w', Ok (row, patch'))
    /\ db w' = [row]
    /\ var_value row = txt "secret123"
    /\ upd_value patch' = Some (MARKER ++ txt "secret123")
    /\ DatabaseVariableService.encrypted_at_rest sample_encrypt (db sample_world)
    /\ ~ DatabaseVariableService.encrypted_at_rest sample_encrypt (db w').
Proof.
  eexists _, _, _. split; [vm_compute; reflexivity|].
  split; [reflexivity|]. split; [reflexivity|]. split; [reflexivity|].
  split.
  - constructor; [|constructor]. exists (txt "old"). reflexivity.
  - intros H. inversion H as [|? ? [p Hp] _]; subst.
    apply sample_encrypt_marked in Hp. vm_compute in Hp. discriminate Hp.
Qed.

(** C3 (the code departs from the claim): [update_variable] stores the
    new ciphertext but leaves [updated_at] at its old value, where
    [update_variable_fields] on the same row sets it to the time of the
    call. *)
Theorem C3_update_variable_keeps_updated_at :
  exists w' row,
    DatabaseVariableService.update_variable sample_encrypt
      1 (txt "OPENAI_API_KEY") (txt "new") sample_world = (w', Ok row)
    /\ db w' = [row]
    /\ var_value row = MARKER ++ txt "new"
    /\ var_updated_at row = var_updated_at sample_row
    /\ exists w'' row' patch',
         DatabaseVariableService.update_variable_fields sample_encrypt
           1 7 secret_patch midsummer sample_world = (w'', Ok (row', patch'))
         /\ var_updated_at row' = Some midsummer.
Proof.
  eexists _, _. split; [vm_compute; reflexivity|].
  repeat (split; [reflexivity|]).
  eexists _, _, _. split; [vm_compute; reflexivity | reflexivity].
Qed.

Lemma sample_environ_openai : sample_environ !! txt "OPENAI_API_KEY" = Some undecodable.
Proof. apply lookup_insert_eq. Qed.

Lemma sample_environ_anthropic :
  sample_environ !! txt "ANTHROPIC_API_KEY" = Some (txt " sk-ant ").
Proof.
  unfold sample_environ.
  rewrite lookup_insert_ne by (intros H; vm_compute in H; discriminate H).
  apply lookup_insert_eq.
Qed.

(** C2 (the code departs from the claim): with [OPENAI_API_KEY] already
    stored for the user and a value in the environment that cannot be
    encrypted, [initialize_user_variables] lets the failure through to
    its caller and never reaches [ANTHROPIC_API_KEY]; from an empty
    table the same failure, now on the creating path, is logged and
    [ANTHROPIC_API_KEY] is created. *)
Theorem C2_update_failure_aborts_batch :
  let run := DatabaseVariableService.initialize_user_variables sample_encrypt
               CREDENTIAL sample_settings sample_environ N.of_nat 1 in
  snd (run sample_world) = Raise (ExternalError (txt "UnicodeEncodeError"))
  /\ db (fst (run sample_world)) = [sample_row]
  /\ first (by_user_name 1 (txt "ANTHROPIC_API_KEY")) (db (fst (run sample_world))) = None
  /\ snd (run empty_world) = Ok tt
  /\ LogError (txt "OPENAI_API_KEY") (ExternalError (txt "UnicodeEncodeError"))
       ∈ logs (fst (run empty_world))
  /\ db (fst (run empty_world))
     = [mk_variable 0 1 (txt "ANTHROPIC_API_KEY") CREDENTIAL
          (MARKER ++ txt "sk-ant") [] None].
Proof.
  cbv zeta. unfold DatabaseVariableService.initialize_user_variables.
  cbn [store_environment_variables variables_to_get_from_environment sample_settings
       DatabaseVariableService.initialize_loop].
  rewrite sample_environ_openai, sample_environ_anthropic.
  split; [vm_compute; reflexivity|].
  split; [vm_compute; reflexivity|].
  split; [vm_compute; reflexivity|].
  split; [vm_compute; reflexivity|].
  split; [|vm_compute; reflexivity].
  vm_compute. apply list_elem_of_In. simpl. auto.
Qed.

(** * Further properties of the Flow validators *)

(** [validate_endpoint_name] on a text: it returns the text unchanged
    exactly when the text is a non-empty run of letters, digits,
    underscores and hyphens, optionally followed by one final newline;
    on every other text (the empty one included) it raises the 422 error
    carrying the format message.  [FlowUpdate]'s validator does the
    same. *)
Theorem validate_endpoint_name_text (s : text) :
  (FlowBase.validate_endpoint_name (VStr s) = Ok (VStr s) <-> endpoint_shape s)
  /\ (~ endpoint_shape s ->
      FlowBase.validate_endpoint_name (VStr s)
      = Raise (HTTPException 422 FlowBase.msg_endpoint_fmt))
  /\ FlowUpdate.validate_endpoint_name (VStr s)
     = FlowBase.validate_endpoint_name (VStr s).
Proof.
  unfold FlowBase.validate_endpoint_name, FlowUpdate.validate_endpoint_name.
  pose proof (re_match_endpoint_spec s) as Hspec. fold (endpoint_shape s) in Hspec.
  destruct (re_match_endpoint s) eqn:Hm; cbn [negb].
  - split; [|split]; [| |reflexivity].
    + split; [intros _; apply Hspec; reflexivity | reflexivity].
    + intros Hn. exfalso. apply Hn, Hspec. reflexivity.
  - split; [|split]; [| |reflexivity].
    + split; [discriminate|]. intros Hs. apply Hspec in Hs. discriminate.
    + reflexivity.
Qed.

Lemma validate_endpoint_name_text_witness :
  FlowBase.validate_endpoint_name (VStr (txt "my flow"))
  = Raise (HTTPException 422 FlowBase.msg_endpoint_fmt)
  /\ FlowBase.validate_endpoint_name (VStr (txt "my-flow_1")) = Ok (VStr (txt "my-flow_1")).
Proof.
  split.
  - destruct (validate_endpoint_name_text (txt "my flow")) as (Hiff & Hrej & _).
    apply Hrej. intros Hs. apply Hiff in Hs. vm_compute in Hs. discriminate Hs.
  - destruct (validate_endpoint_name_text (txt "my-flow_1")) as (Hiff & _ & _).
    apply Hiff. exists (txt "my-flow_1").
    split; [discriminate|]. split; [reflexivity | left; reflexivity].
Defined.

Lemma has_key_spec (key : text) (items : list (text * FlowBase.json)) :
  FlowBase.has_key key items = true <-> key ∈ items.*1.
Proof.
  unfold FlowBase.has_key. rewrite existsb_exists, list_elem_of_fmap. split.
  - intros ([k v] & Hin & Hk). apply bool_decide_eq_true in Hk.
    exists (k, v). split; [symmetry; exact Hk | apply list_elem_of_In, Hin].
  - intros ([k v] & -> & Hin). exists (k, v).
    split; [apply list_elem_of_In, Hin | apply bool_decide_eq_true; reflexivity].
Qed.

(** [validate_json] accepts a document, and then returns it unchanged,
    exactly when the document is falsy ([None], an empty container,
    zero, [False], the empty text) or is a [dict] that holds both a
    ["nodes"] and an ["edges"] key. *)
Theorem validate_json_accepts (v r : FlowBase.json) :
  FlowBase.validate_json v = Ok r <->
  r = v /\ (FlowBase.json_truthy v = false
            \/ exists items, v = FlowBase.JDict items
                 /\ txt "nodes" ∈ items.*1 /\ txt "edges" ∈ items.*1).
Proof.
  unfold FlowBase.validate_json.
  destruct (FlowBase.json_truthy v) eqn:Ht; cbn [negb].
  2:{ split; [intros [= <-]; auto | intros [-> _]; reflexivity]. }
  destruct v as [| b | z | s | l | items];
    try (split; [discriminate | intros [_ [H | (? & H & _)]]; discriminate H]).
  destruct (FlowBase.has_key (txt "nodes") items) eqn:Hn; cbn [negb].
  2:{ split; [discriminate|]. intros [_ [H | (? & [= <-] & Hk & _)]]; [discriminate|].
      apply has_key_spec in Hk. congruence. }
  destruct (FlowBase.has_key (txt "edges") items) eqn:He; cbn [negb].
  2:{ split; [discriminate|]. intros [_ [H | (? & [= <-] & _ & Hk)]]; [discriminate|].
      apply has_key_spec in Hk. congruence. }
  apply has_key_spec in Hn, He.
  split; [intros [= <-]; eauto 10 | intros [-> _]; reflexivity].
Qed.

Lemma validate_json_accepts_witness :
  FlowBase.validate_json
    (FlowBase.JDict [(txt "nodes", FlowBase.JList []); (txt "edges", FlowBase.JList [])])
  = Ok (FlowBase.JDict [(txt "nodes", FlowBase.JList []); (txt "edges", FlowBase.JList [])]).
Proof.
  apply validate_json_accepts. split; [reflexivity|]. right.
  eexists. split; [reflexivity|]. split.
  - apply list_elem_of_here.
  - apply list_elem_of_further, list_elem_of_here.
Defined.

(** The errors of [validate_json], in the order the code tests them: a
    truthy document that is not a [dict] raises the valid-JSON error; a
    non-empty [dict] without ["nodes"] raises the nodes error, whether
    or not it has ["edges"]; with ["nodes"] and without ["edges"] it
    raises the edges error. *)
Theorem validate_json_errors (v : FlowBase.json) :
  FlowBase.json_truthy v = true ->
  ((forall items, v <> FlowBase.JDict items) ->
     FlowBase.validate_json v = Raise (ValueError FlowBase.msg_json_dict))
  /\ (forall items, v = FlowBase.JDict items -> txt "nodes" ∉ items.*1 ->
        FlowBase.validate_json v = Raise (ValueError FlowBase.msg_json_nodes))
  /\ (forall items, v = FlowBase.JDict items ->
        txt "nodes" ∈ items.*1 -> txt "edges" ∉ items.*1 ->
        FlowBase.validate_json v = Raise (ValueError FlowBase.msg_json_edges)).
Proof.
  intros Ht. unfold FlowBase.validate_json. rewrite Ht. cbn [negb].
  split; [|split].
  - intros Hnd. destruct v; try reflexivity. exfalso. eapply Hnd. reflexivity.
  - intros items -> Hn.
    destruct (FlowBase.has_key (txt "nodes") items) eqn:Hk; [|reflexivity].
    apply has_key_spec in Hk. contradiction.
  - intros items -> Hn He.
    apply has_key_spec in Hn. rewrite Hn. cbn [negb].
    destruct (FlowBase.has_key (txt "edges") items) eqn:Hk; [|reflexivity].
    apply has_key_spec in Hk. contradiction.
Qed.

Lemma validate_json_errors_witness :
  FlowBase.validate_json (FlowBase.JDict [(txt "edges", FlowBase.JList [])])
  = Raise (ValueError FlowBase.msg_json_nodes)
  /\ FlowBase.validate_json (FlowBase.JDict [(txt "nodes", FlowBase.JList [])])
     = Raise (ValueError FlowBase.msg_json_edges)
  /\ FlowBase.validate_json (FlowBase.JStr (txt "{}"))
     = Raise (ValueError FlowBase.msg_json_dict).
Proof.
  split; [|split].
  - destruct (validate_json_errors
                (FlowBase.JDict [(txt "edges", FlowBase.JList [])]) eq_refl)
      as (_ & Hnodes & _).
    apply (Hnodes _ eq_refl).
    intros H. apply has_key_spec in H. discriminate H.
  - destruct (validate_json_errors
                (FlowBase.JDict [(txt "nodes", FlowBase.JList [])]) eq_refl)
      as (_ & _ & Hedges).
    apply (Hedges _ eq_refl).
    + apply list_elem_of_here.
    + intros H. apply has_key_spec in H. discriminate H.
  - destruct (validate_json_errors (FlowBase.JStr (txt "{}")) eq_refl) as (Hdict & _).
    apply Hdict. intros items. discriminate.
Defined.

(** ** The icon validator as a whole *)

Lemma colon_delimited_not_letters (ucd : unicode_db) (s : text) :
  startswith COLON s = true -> str_isalpha ucd (str_remove HYPHEN s) = false.
Proof.
  intros Hs. apply (str_isalpha_elem ucd _ COLON); [|reflexivity].
  apply str_remove_keeps; [apply startswith_elem, Hs | discriminate].
Qed.

(** [validate_icon_atr] accepts a text in exactly two ways: the text
    has no colon at either end and is returned unchanged, or it has a
    colon at both ends, its resolution through the emoji table is a pure
    emoji, and that resolution is what is returned. *)
Theorem validate_icon_atr_accepts
    (emojize : text -> text) (purely_emoji : text -> bool) (ucd : unicode_db)
    (s : text) (r : value) :
  snd (FlowBase.validate_icon_atr emojize purely_emoji ucd (VStr s)) = Ok r <->
  (startswith COLON s = false /\ endswith COLON s = false /\ r = VStr s)
  \/ (startswith COLON s = true /\ endswith COLON s = true
      /\ purely_emoji (emojize s) = true /\ r = VStr (emojize s)).
Proof.
  unfold FlowBase.validate_icon_atr.
  destruct (startswith COLON s) eqn:Hs, (endswith COLON s) eqn:He; cbn [negb andb orb snd].
  - destruct (purely_emoji (emojize s)) eqn:Hp.
    + split; [intros [= <-]; right; auto|].
      intros [(Habs & _) | (_ & _ & _ & ->)]; [discriminate | reflexivity].
    + pose proof (colon_delimited_not_letters ucd s Hs) as Halpha.
      split; [|intros [(Habs & _) | (_ & _ & Habs & _)]; discriminate].
      destruct s as [|c s]; [discriminate|]. cbn [truthy andb].
      destruct (str_islower ucd (c :: s)); cbn [negb]; [|discriminate].
      rewrite Halpha. discriminate.
  - split; [discriminate|]. intros [(Habs & _) | (_ & Habs & _)]; discriminate.
  - split; [discriminate|]. intros [(_ & Habs & _) | (Habs & _)]; discriminate.
  - split; [intros [= <-]; left; auto|].
    intros [(_ & _ & ->) | (Habs & _)]; [reflexivity | discriminate].
Qed.

Lemma validate_icon_atr_accepts_witness :
  snd (FlowBase.validate_icon_atr
         (fun s => if bool_decide (s = txt ":smile:") then [128516] else s)
         (fun s => bool_decide (s = [128516]))
         (Build_unicode_db (fun _ => false) (fun _ => false) (fun _ => false)
                           (fun _ => false))
         (VStr (txt ":smile:")))
  = Ok (VStr [128516]).
Proof.
  apply (validate_icon_atr_accepts _ _ _ (txt ":smile:")). right.
  repeat split.
Defined.

(** A warning is emitted exactly for a text with a colon at both ends
    that the emoji table leaves unchanged; it is the invalid-emoji
    message for that text, and it is the only warning. *)
Theorem validate_icon_atr_warns
    (emojize : text -> text) (purely_emoji : text -> bool) (ucd : unicode_db)
    (v : value) (warned : list text) :
  fst (FlowBase.validate_icon_atr emojize purely_emoji ucd v) = warned ->
  (warned <> [] <->
   exists s, v = VStr s /\ startswith COLON s = true /\ endswith COLON s = true
             /\ emojize s = s)
  /\ (forall s, v = VStr s -> warned <> [] -> warned = [FlowBase.msg_invalid_emoji s]).
Proof.
  intros <-. unfold FlowBase.validate_icon_atr.
  destruct v as [| s | z | b | d]; cbn [fst];
    try (split; [split; [intros H; contradiction | intros (? & [=] & _)]
                | intros ? _ H; contradiction]).
  destruct (startswith COLON s) eqn:Hs, (endswith COLON s) eqn:He;
    cbn [negb andb orb fst];
    try (split; [split; [intros H; contradiction
                        | intros (? & [= <-] & H1 & H2 & _); congruence]
                | intros ? _ H; contradiction]).
  case_bool_decide as Heq.
  - split; [split; [intros _; exists s; auto | discriminate]|].
    intros ? [= <-] _. reflexivity.
  - split; [split; [intros H; contradiction
                   | intros (? & [= <-] & _ & _ & H); congruence]
           | intros ? _ H; contradiction].
Qed.

Lemma validate_icon_atr_warns_witness :
  exists s, VStr (txt ":nope:") = VStr s /\ startswith COLON s = true
            /\ endswith COLON s = true /\ (fun x : text => x) s = s.
Proof.
  apply (validate_icon_atr_warns (fun x => x) (fun _ => false)
           (Build_unicode_db (fun _ => false) (fun _ => false) (fun _ => false)
                             (fun _ => false))
           (VStr (txt ":nope:")) [FlowBase.msg_invalid_emoji (txt ":nope:")] eq_refl).
  discriminate.
Defined.

(** ** [updated_at]: what parsing returns and what serialising keeps *)

(** [validate_dt] reads the ISO text of every well-formed [datetime]
    back to that value, microseconds included, with its offset replaced
    by UTC when the offset is less than one second either way. *)
Theorem validate_dt_isoformat (d : datetime) :
  valid_datetime d = true ->
  FlowBase.validate_dt (VStr (isoformat d)) = Ok (VDatetime (read_back d)).
Proof.
  intros Hv. unfold FlowBase.validate_dt.
  rewrite fromisoformat_isoformat by exact Hv. reflexivity.
Qed.

Lemma validate_dt_isoformat_witness :
  FlowBase.validate_dt
    (VStr (isoformat (mk_datetime 2024 5 29 17 57 17 631346 (Some (-18000000000)%Z))))
  = Ok (VDatetime (mk_datetime 2024 5 29 17 57 17 631346 (Some (-18000000000)%Z)))
  /\ FlowBase.validate_dt
       (VStr (isoformat (mk_datetime 2024 5 29 17 57 17 631346 (Some (-999999)%Z))))
     = Ok (VDatetime (mk_datetime 2024 5 29 17 57 17 631346 (Some timezone_utc))).
Proof.
  split.
  - apply (validate_dt_isoformat
             (mk_datetime 2024 5 29 17 57 17 631346 (Some (-18000000000)%Z))).
    vm_compute. reflexivity.
  - apply (validate_dt_isoformat
             (mk_datetime 2024 5 29 17 57 17 631346 (Some (-999999)%Z))).
    vm_compute. reflexivity.
Defined.

Lemma truncated_valid (d : datetime) :
  valid_datetime d = true -> valid_datetime (truncated d) = true.
Proof.
  destruct d as [y m dd h mi s us [o|]];
    unfold valid_datetime, truncated, check_time_fields; cbn;
    rewrite !andb_true_iff; tauto.
Qed.

Lemma serialize_datetime_truncated (d : datetime) :
  FlowBase.serialize_datetime (VDatetime d) = VStr (isoformat (truncated d)).
Proof. destruct d as [y m dd h mi s us [o|]]; reflexivity. Qed.

(** Two well-formed [datetime] values serialise to the same text
    exactly when they agree once cut to whole seconds and given the UTC
    offset where they had none: serialising loses the microseconds and
    the difference between naive and UTC, and nothing else. *)
Theorem serialize_datetime_same_text (d1 d2 : datetime) :
  valid_datetime d1 = true -> valid_datetime d2 = true ->
  (FlowBase.serialize_datetime (VDatetime d1) = FlowBase.serialize_datetime (VDatetime d2)
   <-> truncated d1 = truncated d2).
Proof.
  intros H1 H2. rewrite !serialize_datetime_truncated. split.
  - intros E.
    apply (f_equal (fun v => match v with VStr t => read_isoformat t | _ => Ok d1 end)) in E.
    cbv beta iota in E.
    rewrite !read_isoformat_isoformat in E by (apply truncated_valid; assumption).
    congruence.
  - intros ->. reflexivity.
Qed.

Lemma serialize_datetime_same_text_witness :
  FlowBase.serialize_datetime (VDatetime (mk_datetime 2024 5 29 17 57 17 631346 None))
  = FlowBase.serialize_datetime
      (VDatetime (mk_datetime 2024 5 29 17 57 17 5 (Some timezone_utc))).
Proof.
  apply (serialize_datetime_same_text
           (mk_datetime 2024 5 29 17 57 17 631346 None)
           (mk_datetime 2024 5 29 17 57 17 5 (Some timezone_utc)));
    reflexivity.
Defined.

Lemma offset_read_back_valid (o : Z) :
  check_offset o = true -> check_offset (offset_read_back o) = true.
Proof. unfold offset_read_back. destruct (_ <? _)%Z; [reflexivity | tauto]. Qed.

Lemma offset_read_back_idem (o : Z) :
  offset_read_back (offset_read_back o) = offset_read_back o.
Proof.
  unfold offset_read_back. destruct (Z.abs o <? SECOND_US)%Z eqn:E; [reflexivity|].
  rewrite E. reflexivity.
Qed.

Lemma read_back_valid (d : datetime) :
  valid_datetime d = true -> valid_datetime (read_back d) = true.
Proof.
  destruct d as [y m dd h mi s us [o|]]; unfold valid_datetime, read_back; cbn;
    rewrite !andb_true_iff; [|tauto].
  intros [? ?]. split; [assumption | apply offset_read_back_valid; assumption].
Qed.

(** Serialising, parsing and serialising again gives the text of the
    first serialisation when the offset is absent, zero or at least one
    second either way; and whatever the offset, the text obtained after
    one round is left unchanged by every further round. *)
Theorem serialize_datetime_stable (d : datetime) :
  valid_datetime d = true ->
  exists r,
    FlowBase.validate_dt (FlowBase.serialize_datetime (VDatetime d)) = Ok r
    /\ ((forall o, tzinfo d = Some o -> o = 0%Z \/ (SECOND_US <= Z.abs o)%Z) ->
        FlowBase.serialize_datetime r = FlowBase.serialize_datetime (VDatetime d))
    /\ exists r',
         FlowBase.validate_dt (FlowBase.serialize_datetime r) = Ok r'
         /\ FlowBase.serialize_datetime r' = FlowBase.serialize_datetime r.
Proof.
  intros Hv. exists (VDatetime (read_back (truncated d))).
  pose proof (read_back_valid _ (truncated_valid _ Hv)) as Hv'.
  assert (Ht : truncated (read_back (truncated d)) = read_back (truncated d))
    by (destruct d as [y m dd h mi s us [o|]]; reflexivity).
  assert (Hr : read_back (read_back (truncated d)) = read_back (truncated d)).
  { destruct d as [y m dd h mi s us [o|]]; unfold read_back, truncated; cbn;
      rewrite ?offset_read_back_idem; reflexivity. }
  split; [|split].
  - rewrite serialize_datetime_truncated. unfold FlowBase.validate_dt.
    rewrite fromisoformat_isoformat by (apply truncated_valid, Hv). reflexivity.
  - intros Ho. rewrite !serialize_datetime_truncated, Ht. do 2 f_equal.
    destruct d as [y m dd h mi s us [o|]]; [|reflexivity].
    unfold read_back, truncated, offset_read_back; cbn.
    destruct (Ho o eq_refl) as [-> | Hge]; [reflexivity|].
    replace (Z.abs o <? SECOND_US)%Z with false; [reflexivity|].
    symmetry. apply Z.ltb_ge. exact Hge.
  - exists (VDatetime (read_back (truncated d))).
    rewrite serialize_datetime_truncated, Ht. split; [|reflexivity].
    unfold FlowBase.validate_dt.
    rewrite fromisoformat_isoformat by exact Hv'. cbn [mbind result_bind].
    rewrite Hr. reflexivity.
Qed.

Lemma serialize_datetime_stable_witness :
  exists r,
    FlowBase.validate_dt
      (FlowBase.serialize_datetime
         (VDatetime (mk_datetime 2024 5 29 17 57 17 631346 None))) = Ok r
    /\ FlowBase.serialize_datetime r
       = FlowBase.serialize_datetime
           (VDatetime (mk_datetime 2024 5 29 17 57 17 631346 None)).
Proof.
  destruct (serialize_datetime_stable (mk_datetime 2024 5 29 17 57 17 631346 None)
              eq_refl) as (r & Hr & Hs & _).
  exists r. split; [exact Hr|]. apply Hs. intros o Ho. discriminate Ho.
Defined.

(** * Further properties of the variable service *)

Section ServiceLists.

Lemma first_insert_same (p : VariableRow -> bool) rows i v v' :
  first p rows = Some (i, v) -> p v' = true ->
  first p (<[i := v']> rows) = Some (i, v').
Proof.
  revert i. induction rows as [|x rows IH]; intros i; cbn [first]; [discriminate|].
  destruct (p x) eqn:Hx.
  - intros [= <- <-] Hv. cbn. rewrite Hv. reflexivity.
  - destruct (first p rows) as [[j y]|] eqn:Hf; cbn; [|discriminate].
    intros [= <- <-] Hv.
    change (<[S j := v']> (x :: rows)) with (x :: <[j := v']> rows).
    cbn [first]. rewrite Hx, (IH j eq_refl Hv). reflexivity.
Qed.





Lemma filter_delete_in (q : VariableRow -> bool) rows i v :
  rows !! i = Some v -> q v = true ->
  S (length (List.filter q (delete i rows))) = length (List.filter q rows).
Proof.
  revert i. induction rows as [|x rows IH]; intros i; [discriminate|].
  destruct i as [|i]; simpl.
  - intros [= ->] Hv. rewrite Hv. reflexivity.
  - intros Hi Hv. destruct (q x); simpl; rewrite <- (IH i Hi Hv); reflexivity.
Qed.

Lemma first_filter (p : VariableRow -> bool) rows :
  first p rows = None <-> List.filter p rows = [].
Proof.
  induction rows as [|x rows IH]; cbn; [tauto|].
  destruct (p x); [split; discriminate|].
  destruct (first p rows) as [[j y]|]; cbn.
  - split; [discriminate|]. intros H. apply IH in H. discriminate.
  - split; [intros _; apply IH; reflexivity | reflexivity].
Qed.

Lemma by_user_name_user user_id name v :
  by_user_name user_id name v = true -> var_user_id v = user_id /\ var_name v = name.
Proof.
  unfold by_user_name. intros [Hu Hn]%andb_prop.
  apply N.eqb_eq in Hu. apply bool_decide_eq_true in Hn. auto.
Qed.


Lemma one_first p rows i v : one p rows = Ok (i, v) -> first p rows = Some (i, v).
Proof.
  unfold one. destruct (List.filter p rows) as [|x [|y l]]; try discriminate.
  destruct (first p rows) as [[j z]|]; [|discriminate].
  intros [= <- <-]. reflexivity.
Qed.

Lemma one_spec (p : VariableRow -> bool) (rows : list VariableRow) :
  (one p rows = Raise NoResultFound <-> List.filter p rows = [])
  /\ (one p rows = Raise MultipleResultsFound
      <-> (2 <= length (List.filter p rows))%nat)
  /\ ((exists r, one p rows = Ok r) <-> length (List.filter p rows) = 1%nat).
Proof.
  unfold one.
  destruct (List.filter p rows) as [|x [|y l]] eqn:Hfl; cbn [length].
  - split; [tauto|]. split; [split; [discriminate | lia]|].
    split; [intros [? [=]] | discriminate].
  - destruct (first p rows) as [r|] eqn:Hf.
    + split; [split; discriminate|]. split; [split; [discriminate | lia]|].
      split; eauto.
    + apply first_filter in Hf. congruence.
  - split; [split; discriminate|]. split; [split; [intros _; lia | reflexivity]|].
    split; [intros [? [=]] | discriminate].
Qed.

End ServiceLists.

Section ServiceMore.

Local Set Default Proof Using "Type".

Variable encrypt_api_key : text -> result text.
Variable decrypt_api_key : text -> result text.
Variable CREDENTIAL_TYPE : text.
Variable settings : Settings.
Variable environ : gmap text text.
Variable uuid4 : nat -> UUID.
Variable render : UUID -> text.

Local Abbreviation create_variable :=
  (DatabaseVariableService.create_variable encrypt_api_key uuid4).
Local Abbreviation get_variable :=
  (DatabaseVariableService.get_variable decrypt_api_key CREDENTIAL_TYPE).
Local Abbreviation get_all := DatabaseVariableService.get_all.
Local Abbreviation list_variables := DatabaseVariableService.list_variables.
Local Abbreviation update_variable :=
  (DatabaseVariableService.update_variable encrypt_api_key).
Local Abbreviation update_variable_fields :=
  (DatabaseVariableService.update_variable_fields encrypt_api_key).
Local Abbreviation delete_variable := DatabaseVariableService.delete_variable.
Local Abbreviation delete_variable_by_id :=
  (DatabaseVariableService.delete_variable_by_id render).
Local Abbreviation initialize_loop :=
  (DatabaseVariableService.initialize_loop encrypt_api_key CREDENTIAL_TYPE environ uuid4).
Local Abbreviation initialize_user_variables :=
  (DatabaseVariableService.initialize_user_variables
     encrypt_api_key CREDENTIAL_TYPE settings environ uuid4).
Local Abbreviation encrypted_at_rest :=
  (DatabaseVariableService.encrypted_at_rest encrypt_api_key).

(** A name is in [list_variables] for a user exactly when the lookup
    of [get_variable] finds a row for it; for a name that is not listed
    [get_variable] raises the not-found error. *)
Theorem listed_iff_found (user_id : UUID) (name field : text) (w : World) :
  (name ∈ list_variables user_id w
   <-> exists i v, first (by_user_name user_id name) (db w) = Some (i, v))
  /\ (name ∉ list_variables user_id w ->
      get_variable user_id name field w = Raise (ValueError (msg_not_found name))).
Proof.
  assert (Hiff : name ∈ list_variables user_id w
                 <-> exists i v, first (by_user_name user_id name) (db w) = Some (i, v)).
  { unfold DatabaseVariableService.list_variables, DatabaseVariableService.get_all.
    rewrite list_elem_of_In, in_map_iff. split.
    - intros (v & Hn & [Hin Hu]%filter_In).
      destruct (first (by_user_name user_id name) (db w)) as [[i y]|] eqn:Hf; [eauto|].
      apply first_None in Hf. rewrite Forall_forall in Hf.
      apply list_elem_of_In in Hin. specialize (Hf v Hin).
      apply N.eqb_eq in Hu.
      rewrite (by_user_name_refl _ _ _ Hu Hn) in Hf. discriminate.
    - intros (i & v & Hf). apply first_Some in Hf as [Hl Hp].
      apply by_user_name_user in Hp as [Hu Hn].
      exists v. split; [exact Hn|]. apply filter_In. split.
      + apply list_elem_of_In, list_elem_of_lookup. eauto.
      + apply N.eqb_eq, Hu. }
  split; [exact Hiff|]. intros Hnot.
  unfold DatabaseVariableService.get_variable.
  destruct (first (by_user_name user_id name) (db w)) as [[i v]|]; [|reflexivity].
  exfalso. apply Hnot, Hiff. eauto.
Qed.

(** [create_variable], when the encryption succeeds, appends one row
    for the user: the user's list of names grows by the new name at its
    end, the row carries the next identifier drawn from [uuid4] and the
    ciphertext, and the variables of every other user are as before. *)
Theorem create_variable_listed (user_id : UUID) (name value : text)
    (fields : list text) (_type : text) (w : World) (c : text) :
  encrypt_api_key value = Ok c ->
  exists w' row,
    create_variable user_id name value fields _type w = (w', Ok row)
    /\ list_variables user_id w' = list_variables user_id w ++ [name]
    /\ (forall other, other <> user_id -> get_all other w' = get_all other w)
    /\ var_id row = uuid4 (drawn w) /\ drawn w' = S (drawn w)
    /\ var_value row = c /\ var_type row = _type.
Proof.
  intros He. unfold DatabaseVariableService.create_variable. rewrite He.
  eexists _, _. split; [reflexivity|].
  unfold DatabaseVariableService.list_variables, DatabaseVariableService.get_all.
  cbn [db drawn var_id var_value var_type].
  split; [|split; [|auto]].
  - rewrite List.filter_app, map_app. cbn. rewrite N.eqb_refl. reflexivity.
  - intros other Hne. rewrite List.filter_app. cbn.
    replace (user_id =? other) with false by (symmetry; apply N.eqb_neq; congruence).
    apply app_nil_r.
Qed.

Lemma update_variable_fields_failed user_id variable_id patch now w w' e :
  update_variable_fields user_id variable_id patch now w = (w', Raise e) -> w' = w.
Proof.
  unfold DatabaseVariableService.update_variable_fields.
  destruct (one _ (db w)) as [[i v]|]; [|intros [= <-]; reflexivity].
  destruct (encrypt_api_key _); intros [= <-]; reflexivity.
Qed.

(** An operation on one Variable that raises leaves the table, the
    identifier count and the log exactly as they were. *)
Theorem failed_operation_changes_nothing (user_id variable_id : UUID)
    (name value : text) (fields : list text) (_type : text)
    (patch : VariableUpdate) (now : datetime) (w w' : World) (e : exn) :
  (create_variable user_id name value fields _type w = (w', Raise e) -> w' = w)
  /\ (update_variable user_id name value w = (w', Raise e) -> w' = w)
  /\ (update_variable_fields user_id variable_id patch now w = (w', Raise e) -> w' = w)
  /\ (delete_variable user_id name w = (w', Raise e) -> w' = w)
  /\ (delete_variable_by_id user_id variable_id w = (w', Raise e) -> w' = w).
Proof.
  unfold DatabaseVariableService.create_variable, DatabaseVariableService.update_variable,
    DatabaseVariableService.update_variable_fields,
    DatabaseVariableService.delete_variable,
    DatabaseVariableService.delete_variable_by_id.
  repeat split.
  - destruct (encrypt_api_key value); intros [= <-]; reflexivity.
  - destruct (first _ (db w)) as [[i v]|]; [|intros [= <-]; reflexivity].
    destruct (encrypt_api_key value); intros [= <-]; reflexivity.
  - destruct (one _ (db w)) as [[i v]|]; [|intros [= <-]; reflexivity].
    destruct (encrypt_api_key _); intros [= <-]; reflexivity.
  - destruct (first _ (db w)) as [[i v]|]; intros [= <-]; reflexivity.
  - destruct (first _ (db w)) as [[i v]|]; intros [= <-]; reflexivity.
Qed.




(** After [update_variable] has stored a ciphertext that is not empty
    and decrypts to the new plaintext, [get_variable] for the same user
    and name returns that plaintext (for a field the row's type allows),
    also when several rows carry the name: both work on the first one. *)
Theorem update_then_get (user_id : UUID) (name value field : text) (w : World)
    (i : nat) (v : VariableRow) (c : text) :
  first (by_user_name user_id name) (db w) = Some (i, v) ->
  encrypt_api_key value = Ok c ->
  decrypt_api_key c = Ok value ->
  c <> [] ->
  ~ (var_type v = CREDENTIAL_TYPE /\ field = txt "session_id") ->
  get_variable user_id name field (fst (update_variable user_id name value w))
  = Ok value.
Proof.
  intros Hf He Hd Hne Hallowed.
  unfold DatabaseVariableService.update_variable. rewrite Hf, He. cbn [fst].
  unfold DatabaseVariableService.get_variable. cbn [db with_db].
  pose proof (first_Some _ _ _ _ Hf) as [_ Hp].
  rewrite (first_insert_same _ _ _ _ (set_value c v) Hf) by exact Hp.
  cbn [var_value var_type set_value].
  destruct c as [|x c]; [contradiction|]. cbn [truthy negb].
  destruct (bool_decide (var_type v = CREDENTIAL_TYPE)
            && bool_decide (field = txt "session_id")) eqn:Hb; [|exact Hd].
  apply andb_prop in Hb as [Hty%bool_decide_eq_true Hfd%bool_decide_eq_true].
  exfalso. apply Hallowed. auto.
Qed.


Lemma delete_variable_found (user_id : UUID) (name : text) (w : World) i v :
  first (by_user_name user_id name) (db w) = Some (i, v) ->
  delete_variable user_id name w = (with_db (delete i (db w)) w, Ok tt).
Proof.
  unfold DatabaseVariableService.delete_variable. intros ->. reflexivity.
Qed.

(** [delete_variable] removes the one row [get_variable] would read:
    the table loses exactly one row, the user keeps one row fewer under
    that name, and with no row under the name the call raises the
    not-found error. *)
Theorem delete_variable_removes_first (user_id : UUID) (name : text) (w : World) :
  (first (by_user_name user_id name) (db w) = None ->
   delete_variable user_id name w = (w, Raise (ValueError (msg_not_found name))))
  /\ (forall i v, first (by_user_name user_id name) (db w) = Some (i, v) ->
        exists w', delete_variable user_id name w = (w', Ok tt)
          /\ db w' = delete i (db w)
          /\ S (length (db w')) = length (db w)
          /\ S (length (List.filter (by_user_name user_id name) (db w')))
             = length (List.filter (by_user_name user_id name) (db w))).
Proof.
  split.
  - unfold DatabaseVariableService.delete_variable. intros ->. reflexivity.
  - intros i v Hf. rewrite (delete_variable_found _ _ _ _ _ Hf).
    eexists. split; [reflexivity|]. cbn [db with_db]. split; [reflexivity|].
    apply first_Some in Hf as [Hl Hp]. split.
    + rewrite length_delete by eauto.
      pose proof (lookup_lt_Some _ _ _ Hl). lia.
    + eapply filter_delete_in; eauto.
Qed.

(** When a user has exactly one row under a name, deleting the name
    makes [get_variable] raise the not-found error for it, and so does
    deleting it a second time. *)
Theorem delete_then_get_not_found (user_id : UUID) (name field : text) (w : World) :
  length (List.filter (by_user_name user_id name) (db w)) = 1%nat ->
  exists w',
    delete_variable user_id name w = (w', Ok tt)
    /\ get_variable user_id name field w' = Raise (ValueError (msg_not_found name))
    /\ delete_variable user_id name w' = (w', Raise (ValueError (msg_not_found name))).
Proof.
  intros Hone.
  destruct (first (by_user_name user_id name) (db w)) as [[i v]|] eqn:Hf.
  2:{ apply first_filter in Hf. rewrite Hf in Hone. discriminate. }
  rewrite (delete_variable_found _ _ _ _ _ Hf).
  eexists. split; [reflexivity|].
  set (w' := with_db (delete i (db w)) w).
  assert (Hnone : first (by_user_name user_id name) (db w') = None).
  { apply first_filter. pose proof (first_Some _ _ _ _ Hf) as [Hl Hp].
    pose proof (filter_delete_in _ _ _ _ Hl Hp) as Hcount.
    rewrite Hone in Hcount. subst w'. cbn [db with_db].
    destruct (List.filter _ (delete i (db w))); [reflexivity | discriminate]. }
  unfold DatabaseVariableService.get_variable, DatabaseVariableService.delete_variable.
  rewrite Hnone. split; reflexivity.
Qed.


(** The lookup of [update_variable_fields] wants exactly one row with
    the identifier for the user: with none the call raises
    [NoResultFound], with two or more [MultipleResultsFound], and in
    both cases nothing is committed. *)
Theorem update_variable_fields_lookup (user_id variable_id : UUID)
    (patch : VariableUpdate) (now : datetime) (w : World) :
  (List.filter (by_id_user variable_id user_id) (db w) = [] ->
   update_variable_fields user_id variable_id patch now w = (w, Raise NoResultFound))
  /\ ((2 <= length (List.filter (by_id_user variable_id user_id) (db w)))%nat ->
      update_variable_fields user_id variable_id patch now w
      = (w, Raise MultipleResultsFound)).
Proof.
  unfold DatabaseVariableService.update_variable_fields.
  destruct (one_spec (by_id_user variable_id user_id) (db w)) as (Hnone & Hmany & _).
  split.
  - intros H. apply Hnone in H. rewrite H. reflexivity.
  - intros H. apply Hmany in H. rewrite H. reflexivity.
Qed.

Lemma update_variable_fields_commit (user_id variable_id : UUID)
    (patch : VariableUpdate) (now : datetime) (w w' : World)
    (row : VariableRow) (patch' : VariableUpdate) :
  update_variable_fields user_id variable_id patch now w = (w', Ok (row, patch')) ->
  exists i old,
    one (by_id_user variable_id user_id) (db w) = Ok (i, old)
    /\ db w' = <[i := row]> (db w)
    /\ row = set_updated_at (Some now) (apply_patch patch old).
Proof.
  unfold DatabaseVariableService.update_variable_fields.
  destruct (one _ (db w)) as [[i old]|] eqn:Ho; [|discriminate].
  destruct (encrypt_api_key _); [|discriminate].
  intros [= <- <- <-]. eauto.
Qed.

(** A patch that does not set [value] leaves the stored ciphertext as
    it is, so the table stays encrypted at rest. *)
Theorem update_variable_fields_without_value (user_id variable_id : UUID)
    (patch : VariableUpdate) (now : datetime) (w : World) :
  upd_value patch = None ->
  encrypted_at_rest (db w) ->
  encrypted_at_rest (db (fst (update_variable_fields user_id variable_id patch now w))).
Proof.
  intros Hp Hinv.
  destruct (update_variable_fields user_id variable_id patch now w) as [w' [[row p']|e]] eqn:E.
  - destruct (update_variable_fields_commit _ _ _ _ _ _ _ _ E)
      as (i & old & Ho & Hdb & ->).
    apply one_Ok in Ho as [Hl _].
    cbn [fst]. rewrite Hdb. unfold DatabaseVariableService.encrypted_at_rest in *.
    apply Forall_insert; [exact Hinv|].
    cbn [var_value set_updated_at apply_patch]. rewrite Hp. cbn.
    rewrite Forall_forall in Hinv.
    apply Hinv. apply list_elem_of_lookup. eauto.
  - cbn [fst]. rewrite (update_variable_fields_failed _ _ _ _ _ _ _ E). exact Hinv.
Qed.


Lemma fmap_insert_same_key {B} (key : VariableRow -> B)
    (rows : list VariableRow) (i : nat) v v' :
  rows !! i = Some v -> key v' = key v -> key <$> <[i := v']> rows = key <$> rows.
Proof.
  intros Hl Hk. rewrite list_fmap_insert, Hk.
  apply list_insert_id. rewrite list_lookup_fmap, Hl. reflexivity.
Qed.

Lemma initialize_loop_names_unique (user_id : UUID) vars w :
  names_unique (db w) -> names_unique (db (fst (initialize_loop user_id vars w))).
Proof.
  revert w. induction vars as [|var vars IH]; intros w Hu;
    cbn [DatabaseVariableService.initialize_loop]; [exact Hu|].
  destruct (environ !! var) as [raw|]; [|apply IH, Hu].
  cbn [db emit].
  destruct (first _ (db w)) as [[i found]|] eqn:Hf.
  - destruct (encrypt_api_key (strip raw)) as [c|e]; [|exact Hu].
    apply IH. cbn [db with_db emit]. unfold names_unique in *.
    apply first_Some in Hf as [Hl _].
    rewrite (fmap_insert_same_key _ _ _ found); [exact Hu | exact Hl | reflexivity].
  - unfold DatabaseVariableService.create_variable.
    destruct (encrypt_api_key (strip raw)) as [c|e]; apply IH; cbn [db emit];
      [|exact Hu].
    unfold names_unique in *. rewrite fmap_app. apply NoDup_app.
    split; [exact Hu|]. split; [|apply NoDup_singleton].
    intros [u n] Hin Hnew. apply list_elem_of_singleton in Hnew.
    cbn in Hnew. injection Hnew as -> ->.
    apply list_elem_of_fmap in Hin as (v & Hk & Hv). injection Hk as Hu' Hn'.
    apply first_None in Hf. rewrite Forall_forall in Hf. specialize (Hf v Hv).
    rewrite by_user_name_refl in Hf by congruence. discriminate.
Qed.

(** The bulk import never gives a user two rows under one name: a
    table in which owner and name identify a row is still such a table
    after [initialize_user_variables]. *)
Theorem initialize_keeps_names_unique (user_id : UUID) (w : World) :
  names_unique (db w) ->
  names_unique (db (fst (initialize_user_variables user_id w))).
Proof.
  intros Hu. unfold DatabaseVariableService.initialize_user_variables.
  destruct (store_environment_variables settings); [|exact Hu].
  apply initialize_loop_names_unique. exact Hu.
Qed.








Lemma names_insert_same (q : VariableRow -> bool) (rows : list VariableRow)
    (i : nat) v v' :
  rows !! i = Some v -> q v' = q v -> var_name v' = var_name v ->
  map var_name (List.filter q (<[i := v']> rows)) = map var_name (List.filter q rows).
Proof.
  revert i. induction rows as [|x rows IH]; intros i; [discriminate|].
  destruct i as [|i]; simpl.
  - intros [= ->] Hq Hn. rewrite Hq. destruct (q v); simpl; rewrite ?Hn; reflexivity.
  - intros Hi Hq Hn. destruct (q x); simpl; rewrite (IH i Hi Hq Hn); reflexivity.
Qed.

(** [update_variable] changes one value and nothing else that can be
    seen in a listing: the table keeps its length, and every user's
    list of names is the same before and after. *)
Theorem update_variable_keeps_names (user_id listed : UUID) (name value : text)
    (w : World) :
  list_variables listed (fst (update_variable user_id name value w))
  = list_variables listed w
  /\ length (db (fst (update_variable user_id name value w))) = length (db w).
Proof.
  unfold DatabaseVariableService.update_variable.
  destruct (first _ (db w)) as [[i v]|] eqn:Hf; [|split; reflexivity].
  destruct (encrypt_api_key value); [|split; reflexivity].
  cbn [fst db with_db]. split; [|apply length_insert].
  unfold DatabaseVariableService.list_variables, DatabaseVariableService.get_all.
  cbn [db with_db]. apply first_Some in Hf as [Hl _].
  eapply names_insert_same; [exact Hl | reflexivity | reflexivity].
Qed.

End ServiceMore.

(** ** Worked cases for the further properties *)

Lemma listed_iff_found_witness :
  DatabaseVariableService.get_variable sample_decrypt CREDENTIAL
    1 (txt "MISSING") (txt "api_key") sample_world
  = Raise (ValueError (msg_not_found (txt "MISSING"))).
Proof.
  destruct (listed_iff_found sample_decrypt CREDENTIAL 1 (txt "MISSING") (txt "api_key")
              sample_world) as [_ Hmissing].
  apply Hmissing.
  intros H. vm_compute in H. apply list_elem_of_In in H. simpl in H.
  destruct H as [H | []]. discriminate H.
Defined.

Lemma create_variable_listed_witness :
  exists w' row,
    DatabaseVariableService.create_variable sample_encrypt N.of_nat
      1 (txt "MY_KEY") (txt "secret123") [] GENERIC sample_world = (w', Ok row)
    /\ DatabaseVariableService.list_variables 1 w'
       = DatabaseVariableService.list_variables 1 sample_world ++ [txt "MY_KEY"]
    /\ (forall other, other <> 1 ->
          DatabaseVariableService.get_all other w'
          = DatabaseVariableService.get_all other sample_world)
    /\ var_id row = N.of_nat (drawn sample_world) /\ drawn w' = S (drawn sample_world)
    /\ var_value row = MARKER ++ txt "secret123" /\ var_type row = GENERIC.
Proof.
  apply (create_variable_listed sample_encrypt N.of_nat 1 (txt "MY_KEY")
           (txt "secret123") [] GENERIC sample_world (MARKER ++ txt "secret123")).
  reflexivity.
Defined.

Lemma failed_operation_changes_nothing_witness :
  fst (DatabaseVariableService.update_variable sample_encrypt
         1 (txt "OPENAI_API_KEY") undecodable sample_world) = sample_world.
Proof.
  destruct (failed_operation_changes_nothing sample_encrypt N.of_nat (fun _ => [])
              1 7 (txt "OPENAI_API_KEY") undecodable [] GENERIC secret_patch midsummer
              sample_world
              (fst (DatabaseVariableService.update_variable sample_encrypt
                      1 (txt "OPENAI_API_KEY") undecodable sample_world))
              (ExternalError (txt "UnicodeEncodeError"))) as (_ & Hupd & _).
  apply Hupd. reflexivity.
Defined.


Lemma update_then_get_witness :
  DatabaseVariableService.get_variable sample_decrypt CREDENTIAL
    1 (txt "OPENAI_API_KEY") (txt "api_key")
    (fst (DatabaseVariableService.update_variable sample_encrypt
            1 (txt "OPENAI_API_KEY") (txt "new") sample_world))
  = Ok (txt "new").
Proof.
  apply (update_then_get sample_encrypt sample_decrypt CREDENTIAL
           1 (txt "OPENAI_API_KEY") (txt "new") (txt "api_key") sample_world
           O sample_row (MARKER ++ txt "new")); try reflexivity.
  - discriminate.
  - intros [_ H]. vm_compute in H. discriminate H.
Defined.

Lemma delete_variable_removes_first_witness :
  exists w', DatabaseVariableService.delete_variable 1 (txt "OPENAI_API_KEY") sample_world
             = (w', Ok tt)
    /\ db w' = delete O (db sample_world)
    /\ S (length (db w')) = length (db sample_world)
    /\ S (length (List.filter (by_user_name 1 (txt "OPENAI_API_KEY")) (db w')))
       = length (List.filter (by_user_name 1 (txt "OPENAI_API_KEY")) (db sample_world)).
Proof.
  destruct (delete_variable_removes_first 1 (txt "OPENAI_API_KEY") sample_world)
    as [_ H].
  apply (H O sample_row). reflexivity.
Defined.

Lemma delete_then_get_not_found_witness :
  exists w',
    DatabaseVariableService.delete_variable 1 (txt "OPENAI_API_KEY") sample_world
    = (w', Ok tt)
    /\ DatabaseVariableService.get_variable sample_decrypt CREDENTIAL
         1 (txt "OPENAI_API_KEY") (txt "api_key") w'
       = Raise (ValueError (msg_not_found (txt "OPENAI_API_KEY")))
    /\ DatabaseVariableService.delete_variable 1 (txt "OPENAI_API_KEY") w'
       = (w', Raise (ValueError (msg_not_found (txt "OPENAI_API_KEY")))).
Proof.
  apply (delete_then_get_not_found sample_decrypt CREDENTIAL
           1 (txt "OPENAI_API_KEY") (txt "api_key") sample_world).
  reflexivity.
Defined.

Lemma sample_world_encrypted :
  DatabaseVariableService.encrypted_at_rest sample_encrypt (db sample_world).
Proof. constructor; [|constructor]. exists (txt "old"). reflexivity. Defined.


Lemma update_variable_fields_lookup_witness :
  DatabaseVariableService.update_variable_fields sample_encrypt
    1 8 secret_patch midsummer sample_world = (sample_world, Raise NoResultFound)
  /\ DatabaseVariableService.update_variable_fields sample_encrypt
       1 7 secret_patch midsummer (mk_world [sample_row; sample_row] 0 [])
     = (mk_world [sample_row; sample_row] 0 [], Raise MultipleResultsFound).
Proof.
  split.
  - destruct (update_variable_fields_lookup sample_encrypt 1 8 secret_patch midsummer
                sample_world) as [H _].
    apply H. reflexivity.
  - destruct (update_variable_fields_lookup sample_encrypt 1 7 secret_patch midsummer
                (mk_world [sample_row; sample_row] 0 [])) as [_ H].
    apply H. simpl. lia.
Defined.

Lemma update_variable_fields_without_value_witness :
  DatabaseVariableService.encrypted_at_rest sample_encrypt
    (db (fst (DatabaseVariableService.update_variable_fields sample_encrypt 1 7
                (mk_update (Some (txt "RENAMED")) None None None) midsummer
                sample_world))).
Proof.
  apply (update_variable_fields_without_value sample_encrypt 1 7
           (mk_update (Some (txt "RENAMED")) None None None) midsummer sample_world).
  - reflexivity.
  - exact sample_world_encrypted.
Defined.

Lemma sample_world_names_unique : names_unique (db sample_world).
Proof. apply NoDup_singleton. Defined.

Lemma initialize_keeps_names_unique_witness :
  names_unique
    (db (fst (DatabaseVariableService.initialize_user_variables sample_encrypt
                CREDENTIAL sample_settings clean_environ N.of_nat 1 sample_world))).
Proof.
  apply (initialize_keeps_names_unique sample_encrypt CREDENTIAL sample_settings
           clean_environ N.of_nat 1 sample_world).
  exact sample_world_names_unique.
Defined.





(** ** Encryption at rest, operation by operation *)

(** [create_variable], [update_variable] and
    [initialize_user_variables] keep the table encrypted at rest: when
    every stored value is a ciphertext before the call, every stored
    value is one after it, whether the call returns or raises. *)
Theorem encrypted_at_rest_kept
    (encrypt_api_key : text -> result text) (CREDENTIAL_TYPE : text)
    (settings : Settings) (environ : gmap text text) (uuid4 : nat -> UUID)
    (user_id : UUID) (name value : text) (fields : list text) (_type : text)
    (w : World) :
  DatabaseVariableService.encrypted_at_rest encrypt_api_key (db w) ->
  DatabaseVariableService.encrypted_at_rest encrypt_api_key
    (db (fst (DatabaseVariableService.create_variable encrypt_api_key uuid4
                user_id name value fields _type w)))
  /\ DatabaseVariableService.encrypted_at_rest encrypt_api_key
       (db (fst (DatabaseVariableService.update_variable encrypt_api_key
                   user_id name value w)))
  /\ DatabaseVariableService.encrypted_at_rest encrypt_api_key
       (db (fst (DatabaseVariableService.initialize_user_variables encrypt_api_key
                   CREDENTIAL_TYPE settings environ uuid4 user_id w))).
Proof.
  intros Hinv. split; [|split].
  - destruct (DatabaseVariableService.create_variable _ _ _ _ _ _ _ w) as [w' r] eqn:E.
    eapply create_variable_encrypted; [exact Hinv | exact E].
  - destruct (DatabaseVariableService.update_variable _ _ _ _ w) as [w' r] eqn:E.
    eapply update_variable_encrypted; [exact Hinv | exact E].
  - destruct (DatabaseVariableService.initialize_user_variables _ _ _ _ _ _ w)
      as [w' r] eqn:E.
    eapply initialize_user_variables_encrypted; [exact Hinv | exact E].
Qed.

Lemma encrypted_at_rest_kept_witness :
  DatabaseVariableService.encrypted_at_rest sample_encrypt
    (db (fst (DatabaseVariableService.create_variable sample_encrypt N.of_nat
                1 (txt "MY_KEY") (txt "secret123") [] GENERIC sample_world)))
  /\ DatabaseVariableService.encrypted_at_rest sample_encrypt
       (db (fst (DatabaseVariableService.update_variable sample_encrypt
                   1 (txt "MY_KEY") (txt "secret123") sample_world)))
  /\ DatabaseVariableService.encrypted_at_rest sample_encrypt
       (db (fst (DatabaseVariableService.initialize_user_variables sample_encrypt
                   CREDENTIAL sample_settings sample_environ N.of_nat 1 sample_world))).
Proof.
  apply (encrypted_at_rest_kept sample_encrypt CREDENTIAL sample_settings sample_environ
           N.of_nat 1 (txt "MY_KEY") (txt "secret123") [] GENERIC sample_world).
  exact sample_world_encrypted.
Defined.
